(** * interact-voice: the LiveKit session hook and the agent interface

    A shallow embedding of [src/hooks/useLiveKit.ts] (the [useLiveKit] hook:
    [addMessage], [sendData], [connect], [disconnect] and the room event
    listeners) and of the [AgentInterface] component
    ([handleLiveKitMessage], [handlePaymentSelect], [goToNextStage],
    [goToPreviousStage] and its two effects), followed by the properties
    of the specification that concern them.

    React state ([useState]) and refs ([useRef]) become fields of one
    record that is threaded through every handler; a handler reads the
    state of the latest render.  [async] functions with [try]/[catch]/
    [finally] are written in a small state-and-exception monad.  What the
    outside answers (does a publish succeed, does the server accept the
    connection, which room events fire while a call is pending) is an
    explicit argument of the function that asks. *)

From Stdlib Require Import String Ascii List ZArith NArith Bool Lia DecimalString.
Import ListNotations.
Open Scope string_scope.

(** * JavaScript primitives the sources rely on *)

Module JS.

(** Strings are byte strings (the UTF-8 text that [TextEncoder] emits). *)

(** [if (s)] on a string: the empty string is falsy. *)
Definition truthy (s : string) : bool :=
  match s with EmptyString => false | String _ _ => true end.

(** [if (o)] on an optional string field ([undefined] is falsy). *)
Definition truthy_opt (o : option string) : bool :=
  match o with Some s => truthy s | None => false end.

Fixpoint drop (n : nat) (s : string) : string :=
  match n, s with
  | O, _ => s
  | S _, EmptyString => EmptyString
  | S n', String _ s' => drop n' s'
  end.

(** [s.replace(pat, rep)] with a string pattern: only the first
    occurrence is replaced. *)
Fixpoint replace (pat rep s : string) : string :=
  if String.prefix pat s then rep ++ drop (String.length pat) s
  else match s with
       | EmptyString => EmptyString
       | String c s' => String c (replace pat rep s')
       end.

Definition lower_ascii (c : ascii) : ascii :=
  let n := nat_of_ascii c in
  if (65 <=? n)%nat && (n <=? 90)%nat then ascii_of_nat (n + 32) else c.

(** [s.toLowerCase()]; the case mapping of the ASCII letters (bytes
    outside ASCII are left as they are). *)
Fixpoint toLowerCase (s : string) : string :=
  match s with
  | EmptyString => EmptyString
  | String c s' => String (lower_ascii c) (toLowerCase s')
  end.

(** [hay.includes(needle)]. *)
Fixpoint includes (needle hay : string) : bool :=
  String.prefix needle hay ||
  match hay with
  | EmptyString => false
  | String _ hay' => includes needle hay'
  end.

(** The decimal text of a number, as a template literal prints it. *)
Definition show (n : N) : string := NilEmpty.string_of_uint (N.to_uint n).

(** [arr.indexOf(x)] on an array of strings: [-1] when absent. *)
Fixpoint indexOf (arr : list string) (x : string) : Z :=
  match arr with
  | [] => (-1)%Z
  | y :: arr' =>
      if String.eqb y x then 0%Z
      else let i := indexOf arr' x in
           if (i <? 0)%Z then (-1)%Z else (i + 1)%Z
  end.

(** [arr[i]]: [undefined] ([None]) outside the array. *)
Definition index {A} (arr : list A) (i : Z) : option A :=
  if (i <? 0)%Z then None else nth_error arr (Z.to_nat i).

(** [arr[arr.length - 1]]. *)
Definition last {A} (arr : list A) : option A :=
  index arr (Z.of_nat (List.length arr) - 1).

(** [arr.slice(0, -1)]. *)
Definition slice_0_m1 {A} (arr : list A) : list A := removelast arr.

Definition hex_digit (n : nat) : ascii :=
  if (n <? 10)%nat then ascii_of_nat (48 + n) else ascii_of_nat (87 + n).

(** One character inside a JSON string literal (QuoteJSONString). *)
Definition quote_char (c : ascii) : string :=
  let n := nat_of_ascii c in
  if (n =? 34)%nat then "\" ++ String c EmptyString
  else if (n =? 92)%nat then "\\"
  else if (n =? 8)%nat then "\b"
  else if (n =? 12)%nat then "\f"
  else if (n =? 10)%nat then "\n"
  else if (n =? 13)%nat then "\r"
  else if (n =? 9)%nat then "\t"
  else if (n <? 32)%nat then
    "\u00" ++ String (hex_digit (n / 16)) (String (hex_digit (n mod 16)) EmptyString)
  else String c EmptyString.

Fixpoint quote_body (s : string) : string :=
  match s with
  | EmptyString => EmptyString
  | String c s' => quote_char c ++ quote_body s'
  end.

Definition dquote : string := String (ascii_of_nat 34) EmptyString.

Definition quote (s : string) : string := dquote ++ quote_body s ++ dquote.

(** A plain object whose properties all hold strings, in insertion
    order: the shape of the two outbound commands.  The list stands for
    an object only when its keys are distinct and none is an array
    index, since JavaScript enumerates array-index keys first. *)
Definition object : Type := list (string * string).

Fixpoint members (o : object) : string :=
  match o with
  | [] => EmptyString
  | [(k, v)] => quote k ++ ":" ++ quote v
  | (k, v) :: o' => quote k ++ ":" ++ quote v ++ "," ++ members o'
  end.

(** [JSON.stringify(o)] for such an object. *)
Definition stringify (o : object) : string := "{" ++ members o ++ "}".

End JS.

(** * Data model *)

(** [interface LiveKitMessage].  [type] is kept a string: the decoder
    does not validate it, and the dispatcher has no case for other
    values.  Of [data] ([any]) the code reads two flags and only tests
    them for truthiness. *)

Module MessageData.
Record t := { isPartial : bool; isSpeaking : bool }.
End MessageData.

Module LiveKitMessage.
Record t := {
  type : string;
  stage : option string;
  transcript : option string;
  error : option string;
  status : option string;
  data : option MessageData.t
}.

Definition make (ty : string) : t :=
  {| type := ty; stage := None; transcript := None; error := None;
     status := None; data := None |}.

(** [{ type: 'connection_status', status }] *)
Definition connection_status (s : string) : t :=
  {| type := "connection_status"; stage := None; transcript := None;
     error := None; status := Some s; data := None |}.

(** [{ type: 'state_update', stage }] *)
Definition state_update (s : string) : t :=
  {| type := "state_update"; stage := Some s; transcript := None;
     error := None; status := None; data := None |}.

(** [{ type: 'transcript_update', transcript, data: { isPartial, isSpeaking } }] *)
Definition transcript_update (txt : string) (partial speaking : bool) : t :=
  {| type := "transcript_update"; stage := None; transcript := Some txt;
     error := None; status := None;
     data := Some {| MessageData.isPartial := partial;
                     MessageData.isSpeaking := speaking |} |}.

(** [message.data?.isPartial] and [message.data?.isSpeaking], as truth values. *)
Definition data_isPartial (m : t) : bool :=
  match data m with Some d => MessageData.isPartial d | None => false end.
Definition data_isSpeaking (m : t) : bool :=
  match data m with Some d => MessageData.isSpeaking d | None => false end.
End LiveKitMessage.

Inductive Speaker := user | agent | system.

(** [interface TranscriptMessage]; [timestamp] is the clock reading in
    milliseconds, [isPartial] is optional. *)
Module TranscriptMessage.
Record t := {
  id : string;
  text : string;
  speaker : Speaker;
  timestamp : N;
  isPartial : option bool
}.

(** [if (entry.isPartial)] *)
Definition partial (e : t) : bool :=
  match isPartial e with Some b => b | None => false end.
End TranscriptMessage.

(** What a [catch] clause receives: an [Error] with its message, or any
    other thrown value. *)
Inductive Thrown :=
| ErrorObject (message : string)
| OtherValue.

(** [err instanceof Error ? err.message : 'Unknown error'] *)
Definition error_text (err : Thrown) : string :=
  match err with
  | ErrorObject message => message
  | OtherValue => "Unknown error"
  end.

(** Rooms, participants and tracks of the media client are compared by
    reference; they are modelled by identifiers. *)
Definition Room := nat.
Definition Participant := nat.
Inductive TrackKind := Audio | Video.
Record Track := { track_id : nat; kind : TrackKind }.
Definition AudioTrack := Track.

Definition Track_eqb (a b : Track) : bool :=
  Nat.eqb (track_id a) (track_id b) &&
  match kind a, kind b with
  | Audio, Audio | Video, Video => true
  | _, _ => false
  end.

Inductive RoomEventName :=
| Connected | Disconnected | DataReceived | TrackSubscribed
| TrackUnsubscribed | ParticipantConnected | ParticipantDisconnected.

(** Calls made on the media client, in the order they are made. *)
Inductive ClientCall :=
| NewRoom (r : Room)
| On (r : Room) (e : RoomEventName)
| RoomConnect (r : Room) (url token : string)
| SetMicrophoneEnabled (r : Room) (enabled : bool)
| PublishData (r : Room) (payload : string) (reliable : bool)
| RoomDisconnect (r : Room)
| AttachAndPlay (t : Track).

Inductive LogLevel := log | warn | err_level.

Inductive LogArg :=
| ArgMessage (m : LiveKitMessage.t)
| ArgObject (o : JS.object)
| ArgThrown (e : Thrown)
| ArgText (s : string)
| ArgNone.

Record LogEntry := { level : LogLevel; label : string; arg : LogArg }.

Record Toast := {
  title : string;
  description : string;
  variant : option string
}.

(** State held by [useLiveKit]: its seven [useState] cells and [roomRef]. *)
Record HookState := {
  room : option Room;
  isConnected : bool;
  isConnecting : bool;
  participants : list Participant;
  audioTracks : list AudioTrack;
  messages : list LiveKitMessage.t;
  error : option string;
  roomRef : option Room
}.

(** State held by [AgentInterface]. *)
Record ViewState := {
  currentStage : string;
  transcript : list TranscriptMessage.t;
  isAgentSpeaking : bool;
  isMuted : bool;
  audioEnabled : bool;
  isPaymentProcessing : bool
}.

(** What the program does to its surroundings, and the clock it reads. *)
Record Outside := {
  calls : list ClientCall;
  rooms_created : nat;
  console : list LogEntry;
  toasts : list Toast;
  timers : list N;
  now : N
}.

Record World := { hook : HookState; view : ViewState; outside : Outside }.

Definition initial_hook : HookState :=
  {| room := None; isConnected := false; isConnecting := false;
     participants := []; audioTracks := []; messages := [];
     error := None; roomRef := None |}.

Definition initial_view : ViewState :=
  {| currentStage := "GREETING"; transcript := []; isAgentSpeaking := false;
     isMuted := false; audioEnabled := true; isPaymentProcessing := false |}.

Definition initial_world (t0 : N) : World :=
  {| hook := initial_hook; view := initial_view;
     outside := {| calls := []; rooms_created := 0; console := [];
                   toasts := []; timers := []; now := t0 |} |}.

(** ** State setters *)

Definition on_hook (f : HookState -> HookState) (w : World) : World :=
  {| hook := f (hook w); view := view w; outside := outside w |}.
Definition on_view (f : ViewState -> ViewState) (w : World) : World :=
  {| hook := hook w; view := f (view w); outside := outside w |}.
Definition on_outside (f : Outside -> Outside) (w : World) : World :=
  {| hook := hook w; view := view w; outside := f (outside w) |}.

Definition setRoom (v : option Room) : World -> World :=
  on_hook (fun h =>
    {| room := v; isConnected := isConnected h; isConnecting := isConnecting h;
       participants := participants h; audioTracks := audioTracks h;
       messages := messages h; error := error h; roomRef := roomRef h |}).
Definition setIsConnected (v : bool) : World -> World :=
  on_hook (fun h =>
    {| room := room h; isConnected := v; isConnecting := isConnecting h;
       participants := participants h; audioTracks := audioTracks h;
       messages := messages h; error := error h; roomRef := roomRef h |}).
Definition setIsConnecting (v : bool) : World -> World :=
  on_hook (fun h =>
    {| room := room h; isConnected := isConnected h; isConnecting := v;
       participants := participants h; audioTracks := audioTracks h;
       messages := messages h; error := error h; roomRef := roomRef h |}).
Definition setParticipants (f : list Participant -> list Participant) : World -> World :=
  on_hook (fun h =>
    {| room := room h; isConnected := isConnected h; isConnecting := isConnecting h;
       participants := f (participants h); audioTracks := audioTracks h;
       messages := messages h; error := error h; roomRef := roomRef h |}).
Definition setAudioTracks (f : list AudioTrack -> list AudioTrack) : World -> World :=
  on_hook (fun h =>
    {| room := room h; isConnected := isConnected h; isConnecting := isConnecting h;
       participants := participants h; audioTracks := f (audioTracks h);
       messages := messages h; error := error h; roomRef := roomRef h |}).
Definition setMessages (f : list LiveKitMessage.t -> list LiveKitMessage.t) : World -> World :=
  on_hook (fun h =>
    {| room := room h; isConnected := isConnected h; isConnecting := isConnecting h;
       participants := participants h; audioTracks := audioTracks h;
       messages := f (messages h); error := error h; roomRef := roomRef h |}).
Definition setError (v : option string) : World -> World :=
  on_hook (fun h =>
    {| room := room h; isConnected := isConnected h; isConnecting := isConnecting h;
       participants := participants h; audioTracks := audioTracks h;
       messages := messages h; error := v; roomRef := roomRef h |}).
Definition set_roomRef (v : option Room) : World -> World :=
  on_hook (fun h =>
    {| room := room h; isConnected := isConnected h; isConnecting := isConnecting h;
       participants := participants h; audioTracks := audioTracks h;
       messages := messages h; error := error h; roomRef := v |}).

Definition setCurrentStage (v : string) : World -> World :=
  on_view (fun s =>
    {| currentStage := v; transcript := transcript s;
       isAgentSpeaking := isAgentSpeaking s; isMuted := isMuted s;
       audioEnabled := audioEnabled s; isPaymentProcessing := isPaymentProcessing s |}).
Definition setTranscript
    (f : list TranscriptMessage.t -> list TranscriptMessage.t) : World -> World :=
  on_view (fun s =>
    {| currentStage := currentStage s; transcript := f (transcript s);
       isAgentSpeaking := isAgentSpeaking s; isMuted := isMuted s;
       audioEnabled := audioEnabled s; isPaymentProcessing := isPaymentProcessing s |}).
Definition setIsAgentSpeaking (v : bool) : World -> World :=
  on_view (fun s =>
    {| currentStage := currentStage s; transcript := transcript s;
       isAgentSpeaking := v; isMuted := isMuted s;
       audioEnabled := audioEnabled s; isPaymentProcessing := isPaymentProcessing s |}).
Definition setIsPaymentProcessing (v : bool) : World -> World :=
  on_view (fun s =>
    {| currentStage := currentStage s; transcript := transcript s;
       isAgentSpeaking := isAgentSpeaking s; isMuted := isMuted s;
       audioEnabled := audioEnabled s; isPaymentProcessing := v |}).

Definition with_calls (f : list ClientCall -> list ClientCall) (n : nat -> nat)
    : World -> World :=
  on_outside (fun o =>
    {| calls := f (calls o); rooms_created := n (rooms_created o);
       console := console o; toasts := toasts o; timers := timers o; now := now o |}).
Definition call (c : ClientCall) : World -> World :=
  with_calls (fun cs => (cs ++ [c])%list) (fun n => n).
Definition console_write (l : LogLevel) (lbl : string) (a : LogArg) : World -> World :=
  on_outside (fun o =>
    {| calls := calls o; rooms_created := rooms_created o;
       console := (console o ++ [{| level := l; label := lbl; arg := a |}])%list;
       toasts := toasts o; timers := timers o; now := now o |}).
Definition toast (t : Toast) : World -> World :=
  on_outside (fun o =>
    {| calls := calls o; rooms_created := rooms_created o; console := console o;
       toasts := (toasts o ++ [t])%list; timers := timers o; now := now o |}).
Definition setTimeout (delay : N) : World -> World :=
  on_outside (fun o =>
    {| calls := calls o; rooms_created := rooms_created o; console := console o;
       toasts := toasts o; timers := (timers o ++ [delay])%list; now := now o |}).
(** The clock moves on between events. *)
Definition advance (dt : N) : World -> World :=
  on_outside (fun o =>
    {| calls := calls o; rooms_created := rooms_created o; console := console o;
       toasts := toasts o; timers := timers o; now := (now o + dt)%N |}).

(** [Date.now()] *)
Definition Date_now (w : World) : N := now (outside w).

(** ** The monad of handlers that may throw *)

Inductive Completion (A : Type) :=
| Normal (a : A)
| Abrupt (e : Thrown).
Arguments Normal {A} a.
Arguments Abrupt {A} e.

Definition M (A : Type) : Type := World -> Completion A * World.

Definition ret {A} (a : A) : M A := fun w => (Normal a, w).

Definition bind {A B} (m : M A) (k : A -> M B) : M B :=
  fun w => match m w with
           | (Normal a, w') => k a w'
           | (Abrupt e, w') => (Abrupt e, w')
           end.

Definition throw {A} (e : Thrown) : M A := fun w => (Abrupt e, w).

(** A state update or an effect that cannot fail. *)
Definition act (f : World -> World) : M unit := fun w => (Normal tt, f w).

(** Reading state. *)
Definition read {A} (f : World -> A) : M A := fun w => (Normal (f w), w).

(** [await p] where the outside settles [p]: [None] fulfils, [Some e]
    rejects with [e]. *)
Definition await (outcome : option Thrown) : M unit :=
  match outcome with
  | None => ret tt
  | Some e => throw e
  end.

(** [try { body } catch (err) { handler }] *)
Definition try_catch {A} (body : M A) (handler : Thrown -> M A) : M A :=
  fun w => match body w with
           | (Normal a, w') => (Normal a, w')
           | (Abrupt e, w') => handler e w'
           end.

(** [try { body } finally { fin }]; [fin] itself does not throw. *)
Definition try_finally {A} (body : M A) (fin : World -> World) : M A :=
  fun w => let (c, w') := body w in (c, fin w').

Declare Scope handler_scope.
Delimit Scope handler_scope with handler.
Notation "x <- m ;; k" := (bind m (fun x => k))
  (at level 61, m at next level, right associativity) : handler_scope.
Notation "m ;; k" := (bind m (fun _ => k))
  (at level 61, right associativity) : handler_scope.

(** The state a handler leaves, and how it completed. *)
Definition after {A} (m : M A) (w : World) : World := snd (m w).
Definition completion {A} (m : M A) (w : World) : Completion A := fst (m w).

Open Scope handler_scope.

(** Statements that cannot fail, run one after the other. *)
Definition seq (stmts : list (World -> World)) (w : World) : World :=
  fold_left (fun w' stmt => stmt w') stmts w.

(** * The hook: [useLiveKit] *)

Record UseLiveKitProps := {
  userName : string;
  serverUrl : string;
  token : option string;
  roomName : string
}.

(** The defaults of the destructured argument; [AgentInterface] passes
    [{ userName }] only. *)
Definition props_of (name : string) : UseLiveKitProps :=
  {| userName := name; serverUrl := "wss://your-livekit-server.com";
     token := None; roomName := "ai-agent-room" |}.

(** Events a room emits and the hook listens to. *)
Inductive RoomEvent :=
| EvConnected
| EvDisconnected (reason : string)
| EvDataReceived (payload : string)
| EvTrackSubscribed (t : Track) (identity : option string)
| EvTrackUnsubscribed (t : Track)
| EvParticipantConnected (p : Participant)
| EvParticipantDisconnected (p : Participant).

(** What the outside does while [connect] is suspended at its two
    [await]s on the media client. *)
Record ConnectEnv := {
  while_connecting : list RoomEvent;
  connect_outcome : option Thrown;
  while_enabling_microphone : list RoomEvent;
  microphone_outcome : option Thrown
}.

Definition addMessage (message : LiveKitMessage.t) : World -> World :=
  seq [ console_write log "LiveKit Message:" (ArgMessage message);
        setMessages (fun prev => (prev ++ [message])%list) ].

Definition sendData (publish_outcome : option Thrown) (message : JS.object) : M unit :=
  current <- read (fun w => roomRef (hook w)) ;;
  connected <- read (fun w => isConnected (hook w)) ;;
  match current, connected with
  | Some r, true =>
      try_catch
        (act (call (PublishData r (JS.stringify message) true)) ;;
         await publish_outcome ;;
         act (console_write log "Data sent:" (ArgObject message)))
        (fun err =>
           act (console_write err_level "Error sending data:" (ArgThrown err)) ;;
           act (setError (Some ("Failed to send data: " ++ error_text err))))
  | _, _ =>
      act (console_write warn "Cannot send data: Room not connected" ArgNone)
  end.

(** [generateToken]: the placeholder of the sources. *)
Definition generateToken (name room_name : string) : M string :=
  act (console_write warn
         "Using placeholder token - implement proper token generation in production"
         ArgNone) ;;
  ret ("placeholder-token-for-" ++ name ++ "-in-" ++ room_name).

Definition disconnect (w : World) : World :=
  match roomRef (hook w) with
  | Some r =>
      seq [ call (RoomDisconnect r);
            set_roomRef None;
            setRoom None;
            setIsConnected false;
            setParticipants (fun _ => []);
            setAudioTracks (fun _ => []);
            addMessage (LiveKitMessage.connection_status "disconnected") ] w
  | None => w
  end.

(** The effect on [room]: when a room is set, the participant list is
    rebuilt from the participants the room reports. *)
Definition participantsEffect (local : Participant) (remote : list Participant)
    (w : World) : World :=
  match room (hook w) with
  | Some _ => setParticipants (fun _ => local :: remote) w
  | None => w
  end.

(** The cleanup that runs on unmount. *)
Definition unmount (w : World) : World :=
  match roomRef (hook w) with
  | Some r => call (RoomDisconnect r) w
  | None => w
  end.

Section Decoder.

(** [JSON.parse(new TextDecoder().decode(payload))]: the decoded
    message, taken at its declared type, or the exception thrown. *)
Variable JSON_parse : string -> Thrown + LiveKitMessage.t.

(** The listeners [connect] registers on a new room. *)
Definition listener (e : RoomEvent) : World -> World :=
  match e with
  | EvConnected =>
      seq [ console_write log "Connected to room" ArgNone;
            setIsConnected true;
            addMessage (LiveKitMessage.connection_status "connected") ]
  | EvDisconnected reason =>
      seq [ console_write log "Disconnected from room:" (ArgText reason);
            setIsConnected false;
            addMessage (LiveKitMessage.connection_status "disconnected") ]
  | EvDataReceived payload =>
      match JSON_parse payload with
      | inr message => addMessage message
      | inl err => console_write err_level "Error parsing received data:" (ArgThrown err)
      end
  | EvTrackSubscribed t identity =>
      seq [ console_write log "Track subscribed:"
              (ArgText (match identity with Some i => i | None => "undefined" end));
            match kind t with
            | Audio =>
                seq [ setAudioTracks (fun prev => (prev ++ [t])%list);
                      call (AttachAndPlay t) ]
            | Video => fun w => w
            end ]
  | EvTrackUnsubscribed t =>
      match kind t with
      | Audio => setAudioTracks (fun prev => filter (fun t' => negb (Track_eqb t' t)) prev)
      | Video => fun w => w
      end
  | EvParticipantConnected p =>
      seq [ console_write log "Participant connected:" ArgNone;
            setParticipants (fun prev => (prev ++ [p])%list) ]
  | EvParticipantDisconnected p =>
      seq [ console_write log "Participant disconnected:" ArgNone;
            setParticipants (fun prev => filter (fun p' => negb (Nat.eqb p' p)) prev) ]
  end.

(** Room events dispatched one after the other. *)
Definition dispatch (events : list RoomEvent) : World -> World :=
  fun w => fold_left (fun w' e => listener e w') events w.

Definition all_events : list RoomEventName :=
  [ Connected; Disconnected; DataReceived; TrackSubscribed;
    TrackUnsubscribed; ParticipantConnected; ParticipantDisconnected ].

(** [new Room(...)] followed by the chain of [.on(...)]. *)
Definition new_Room_with_listeners : M Room :=
  r <- read (fun w => rooms_created (outside w)) ;;
  act (with_calls (fun cs => (cs ++ NewRoom r :: map (On r) all_events)%list) S) ;;
  ret r.

Definition connect (props : UseLiveKitProps) (env : ConnectEnv) : M unit :=
  connecting <- read (fun w => isConnecting (hook w)) ;;
  connected <- read (fun w => isConnected (hook w)) ;;
  if connecting || connected then ret tt
  else
    act (setIsConnecting true) ;;
    act (setError None) ;;
    try_finally
      (try_catch
         (newRoom <- new_Room_with_listeners ;;
          connectionToken <-
            (if JS.truthy_opt (token props)
             then ret (match token props with Some t => t | None => "" end)
             else generateToken (userName props) (roomName props)) ;;
          act (call (RoomConnect newRoom (serverUrl props) connectionToken)) ;;
          act (dispatch (while_connecting env)) ;;
          await (connect_outcome env) ;;
          act (call (SetMicrophoneEnabled newRoom true)) ;;
          act (dispatch (while_enabling_microphone env)) ;;
          await (microphone_outcome env) ;;
          act (setRoom (Some newRoom)) ;;
          act (set_roomRef (Some newRoom)))
         (fun err =>
            act (console_write err_level "Error connecting to room:" (ArgThrown err)) ;;
            act (setError (Some ("Connection failed: " ++ error_text err))) ;;
            act (setIsConnected false)))
      (setIsConnecting false).

End Decoder.

(** * The component: [AgentInterface] *)

Definition STAGES : list string :=
  ["GREETING"; "PAYMENT_SELECTION"; "NBFC_PROCESS"; "RCA_DOCS"].

Definition destructive : option string := Some "destructive".

(** [handleLiveKitMessage] *)
Definition handleLiveKitMessage (message : LiveKitMessage.t) (w : World) : World :=
  let w := console_write log "Processing message:" (ArgMessage message) w in
  let type := LiveKitMessage.type message in
  if String.eqb type "state_update" then
    match LiveKitMessage.stage message with
    | Some stage =>
        if JS.truthy stage then
          let systemMessage :=
            {| TranscriptMessage.id := "system-" ++ JS.show (Date_now w);
               TranscriptMessage.text :=
                 "Stage updated: " ++ JS.toLowerCase (JS.replace "_" " " stage);
               TranscriptMessage.speaker := system;
               TranscriptMessage.timestamp := Date_now w;
               TranscriptMessage.isPartial := None |} in
          seq [ setCurrentStage stage;
                setTranscript (fun prev => (prev ++ [systemMessage])%list) ] w
        else w
    | None => w
    end
  else if String.eqb type "transcript_update" then
    match LiveKitMessage.transcript message with
    | Some txt =>
        if JS.truthy txt then
          let transcriptMessage :=
            {| TranscriptMessage.id := "transcript-" ++ JS.show (Date_now w);
               TranscriptMessage.text := txt;
               TranscriptMessage.speaker := agent;
               TranscriptMessage.timestamp := Date_now w;
               TranscriptMessage.isPartial :=
                 Some (LiveKitMessage.data_isPartial message) |} in
          seq [ setTranscript (fun prev =>
                  (* Replace last partial message if this is an update *)
                  if LiveKitMessage.data_isPartial message
                     && (0 <? List.length prev)%nat
                     && match JS.last prev with
                        | Some e => TranscriptMessage.partial e
                        | None => false
                        end
                  then (JS.slice_0_m1 prev ++ [transcriptMessage])%list
                  else (prev ++ [transcriptMessage])%list);
                setIsAgentSpeaking (LiveKitMessage.data_isSpeaking message) ] w
        else w
    | None => w
    end
  else if String.eqb type "connection_status" then
    match LiveKitMessage.status message with
    | Some status =>
        if String.eqb status "connected" then
          toast {| title := "Connected";
                   description := "Voice agent is ready to assist you";
                   variant := None |} w
        else if String.eqb status "disconnected" then
          toast {| title := "Disconnected";
                   description := "Connection to voice agent lost";
                   variant := destructive |} w
        else w
    | None => w
    end
  else if String.eqb type "error" then
    match LiveKitMessage.error message with
    | Some e =>
        if JS.truthy e then
          toast {| title := "Error"; description := e; variant := destructive |} w
        else w
    | None => w
    end
  else w.

(** The effect on [messages]: [messages.forEach(handleLiveKitMessage)].
    It runs after every render in which [messages] is a new array, over
    the whole array. *)
Definition forEach_handleLiveKitMessage (arr : list LiveKitMessage.t) (w : World) : World :=
  fold_left (fun w' message => handleLiveKitMessage message w') arr w.

Definition messagesEffect (w : World) : World :=
  forEach_handleLiveKitMessage (messages (hook w)) w.

(** [handlePaymentSelect] *)
Definition handlePaymentSelect (publish_outcome : option Thrown) (selection : string)
    : M unit :=
  act (setIsPaymentProcessing true) ;;
  try_finally
    (try_catch
       (sendData publish_outcome
          [("type", "payment_choice"); ("selection", selection)] ;;
        t <- read Date_now ;;
        let userMessage :=
          {| TranscriptMessage.id := "user-" ++ JS.show t;
             TranscriptMessage.text :=
               "Selected payment method: " ++ JS.replace "_" " " selection;
             TranscriptMessage.speaker := user;
             TranscriptMessage.timestamp := t;
             TranscriptMessage.isPartial := None |} in
        act (setTranscript (fun prev => (prev ++ [userMessage])%list)) ;;
        act (toast {| title := "Payment Selection Sent";
                      description := "Selected: " ++ JS.replace "_" " " selection;
                      variant := None |}))
       (fun _ =>
          act (toast {| title := "Error";
                        description := "Failed to send payment selection";
                        variant := destructive |})))
    (setTimeout 1500).

(** The timer of [handlePaymentSelect] fires. *)
Definition paymentTimerFires : World -> World := setIsPaymentProcessing false.

(** Reading a property of [undefined]. *)
Definition TypeError : Thrown :=
  ErrorObject "Cannot read properties of undefined (reading 'replace')".

(** [goToNextStage].  [sendData] is started and not awaited; it never
    rejects, and what it does after its own [await] touches neither the
    toasts nor the view, so it is run to its end where it is called.
    [STAGES[i]] outside the array would be [undefined], on which
    [.replace] throws; the guard excludes it. *)
Definition goToNextStage (publish_outcome : option Thrown) : M unit :=
  stage <- read (fun w => currentStage (view w)) ;;
  let currentIndex := JS.indexOf STAGES stage in
  if (currentIndex <? Z.of_nat (List.length STAGES) - 1)%Z then
    match JS.index STAGES (currentIndex + 1) with
    | Some nextStage =>
        act (setCurrentStage nextStage) ;;
        t <- read Date_now ;;
        let systemMessage :=
          {| TranscriptMessage.id := "system-" ++ JS.show t;
             TranscriptMessage.text :=
               "Moved to: " ++ JS.toLowerCase (JS.replace "_" " " nextStage);
             TranscriptMessage.speaker := system;
             TranscriptMessage.timestamp := t;
             TranscriptMessage.isPartial := None |} in
        act (setTranscript (fun prev => (prev ++ [systemMessage])%list)) ;;
        sendData publish_outcome
          [("type", "manual_stage_change"); ("stage", nextStage)] ;;
        act (toast {| title := "Next Stage";
                      description := "Moved to " ++ JS.replace "_" " " nextStage;
                      variant := None |})
    | None => throw TypeError
    end
  else ret tt.

(** [goToPreviousStage] *)
Definition goToPreviousStage (publish_outcome : option Thrown) : M unit :=
  stage <- read (fun w => currentStage (view w)) ;;
  let currentIndex := JS.indexOf STAGES stage in
  if (currentIndex >? 0)%Z then
    match JS.index STAGES (currentIndex - 1) with
    | Some previousStage =>
        act (setCurrentStage previousStage) ;;
        t <- read Date_now ;;
        let systemMessage :=
          {| TranscriptMessage.id := "system-" ++ JS.show t;
             TranscriptMessage.text :=
               "Moved back to: " ++ JS.toLowerCase (JS.replace "_" " " previousStage);
             TranscriptMessage.speaker := system;
             TranscriptMessage.timestamp := t;
             TranscriptMessage.isPartial := None |} in
        act (setTranscript (fun prev => (prev ++ [systemMessage])%list)) ;;
        sendData publish_outcome
          [("type", "manual_stage_change"); ("stage", previousStage)] ;;
        act (toast {| title := "Previous Stage";
                      description := "Moved to " ++ JS.replace "_" " " previousStage;
                      variant := None |})
    | None => throw TypeError
    end
  else ret tt.

(** The two navigation buttons. *)
Inductive Navigation := next | previous.

Definition navigate (step : Navigation * option Thrown) : M unit :=
  match step with
  | (next, publish_outcome) => goToNextStage publish_outcome
  | (previous, publish_outcome) => goToPreviousStage publish_outcome
  end.

(** A sequence of button presses; a handler that throws does not stop
    the later ones. *)
Definition navigation (steps : list (Navigation * option Thrown)) (w : World) : World :=
  fold_left (fun w' step => after (navigate step) w') steps w.

Section Arrival.

Variable JSON_parse : string -> Thrown + LiveKitMessage.t.

(** The effect for auto-connect: it runs after a render in which
    [isConnected], [isConnecting] or [connect] changed. *)
Definition autoConnectEffect (props : UseLiveKitProps) (env : ConnectEnv) : M unit :=
  connected <- read (fun w => isConnected (hook w)) ;;
  connecting <- read (fun w => isConnecting (hook w)) ;;
  if negb connected && negb connecting then connect JSON_parse props env
  else ret tt.

(** A room event reaches the mounted component: the listener runs, and
    when it appended to [messages] the render that follows runs the
    effect on [messages].  ([messages] only ever grows by [addMessage],
    so it is a new array exactly when it is longer.) *)
Definition room_event (e : RoomEvent) (w : World) : World :=
  let w' := listener JSON_parse e w in
  if Nat.eqb (List.length (messages (hook w'))) (List.length (messages (hook w)))
  then w'
  else messagesEffect w'.

(** Room events arriving one at a time, each followed by its render. *)
Definition room_events (events : list RoomEvent) (w : World) : World :=
  fold_left (fun w' e => room_event e w') events w.

End Arrival.

(** ** The remaining handlers of [AgentInterface] *)

Definition setIsMuted (v : bool) : World -> World :=
  on_view (fun s =>
    {| currentStage := currentStage s; transcript := transcript s;
       isAgentSpeaking := isAgentSpeaking s; isMuted := v;
       audioEnabled := audioEnabled s; isPaymentProcessing := isPaymentProcessing s |}).
Definition setAudioEnabled (v : bool) : World -> World :=
  on_view (fun s =>
    {| currentStage := currentStage s; transcript := transcript s;
       isAgentSpeaking := isAgentSpeaking s; isMuted := isMuted s;
       audioEnabled := v; isPaymentProcessing := isPaymentProcessing s |}).

(** [toggleMicrophone] *)
Definition toggleMicrophone (w : World) : World :=
  let muted := isMuted (view w) in
  seq [ setIsMuted (negb muted);
        toast {| title := if muted then "Microphone On" else "Microphone Muted";
                 description :=
                   if muted then "You can now speak" else "Your microphone is muted";
                 variant := None |} ] w.

(** [toggleAudio] *)
Definition toggleAudio (w : World) : World :=
  let enabled := audioEnabled (view w) in
  seq [ setAudioEnabled (negb enabled);
        toast {| title := if enabled then "Audio Disabled" else "Audio Enabled";
                 description :=
                   if enabled then "You won't hear the agent"
                   else "You can now hear the agent";
                 variant := None |} ] w.

(** [canGoBack] and [canGoForward], which disable the two buttons. *)
Definition canGoBack (w : World) : bool :=
  (JS.indexOf STAGES (currentStage (view w)) >? 0)%Z.
Definition canGoForward (w : World) : bool :=
  (JS.indexOf STAGES (currentStage (view w)) <? Z.of_nat (List.length STAGES) - 1)%Z.

(** * The application shell: [App] *)

Module App.
Record State := { isLoggedIn : bool; userName : string }.
Definition initial : State := {| isLoggedIn := false; userName := "" |}.
Definition handleLogin (name : string) (_ : State) : State :=
  {| isLoggedIn := true; userName := name |}.
Definition handleLogout (_ : State) : State :=
  {| isLoggedIn := false; userName := "" |}.
End App.

(** [handleDisconnect]: [disconnect(); onLogout()].  [App] renders
    [AgentInterface] only while logged in, so the logout unmounts it and
    the cleanup of the hook runs. *)
Definition handleDisconnect (s : App.State * World) : App.State * World :=
  let w := disconnect (snd s) in
  let app := App.handleLogout (fst s) in
  (app, if App.isLoggedIn app then w else unmount w).

(** * A session: what can happen to the mounted component *)

Inductive Action :=
| DoConnect (props : UseLiveKitProps) (env : ConnectEnv)
| DoDisconnect
| DoRoomEvent (e : RoomEvent)
| DoParticipantsEffect (local : Participant) (remote : list Participant)
| DoSendData (publish_outcome : option Thrown) (message : JS.object)
| DoPaymentSelect (publish_outcome : option Thrown) (selection : string)
| DoPaymentTimer
| DoNavigate (step : Navigation * option Thrown)
| DoToggleMicrophone
| DoToggleAudio
| DoTick (dt : N).

Section Session.

Variable JSON_parse : string -> Thrown + LiveKitMessage.t.

(** The handler itself, before the render that follows it. *)
Definition handler_of (a : Action) : World -> World :=
  match a with
  | DoConnect props env => after (connect JSON_parse props env)
  | DoDisconnect => disconnect
  | DoRoomEvent e => listener JSON_parse e
  | DoParticipantsEffect local remote => participantsEffect local remote
  | DoSendData o message => after (sendData o message)
  | DoPaymentSelect o selection => after (handlePaymentSelect o selection)
  | DoPaymentTimer => paymentTimerFires
  | DoNavigate step => after (navigate step)
  | DoToggleMicrophone => toggleMicrophone
  | DoToggleAudio => toggleAudio
  | DoTick dt => advance dt
  end.

(** The handler, then the effect on [messages] when the handler
    appended to them. *)
Definition perform (a : Action) (w : World) : World :=
  let w' := handler_of a w in
  if Nat.eqb (List.length (messages (hook w'))) (List.length (messages (hook w)))
  then w'
  else messagesEffect w'.

Definition session (actions : list Action) (w : World) : World :=
  fold_left (fun w' a => perform a w') actions w.

End Session.

(** [arr.map((x, index) => ...)]: the elements with their indices. *)
Definition indexed {A} (arr : list A) : list (Z * A) :=
  combine (map Z.of_nat (List.seq 0 (List.length arr))) arr.

(** * The stepper: [Stepper] *)

Module Stepper.

Record Step := { id : string; title : string; description : string }.

Definition steps : list Step :=
  [ {| id := "GREETING"; title := "Welcome"; description := "Initial greeting" |};
    {| id := "PAYMENT_SELECTION"; title := "Payment";
       description := "Choose payment method" |};
    {| id := "NBFC_PROCESS"; title := "NBFC"; description := "Loan processing" |};
    {| id := "RCA_DOCS"; title := "Documents";
       description := "Document verification" |} ].

(** [arr.findIndex(p)]: [-1] when no element satisfies [p]. *)
Fixpoint findIndex {A} (p : A -> bool) (arr : list A) : Z :=
  match arr with
  | [] => (-1)%Z
  | x :: arr' =>
      if p x then 0%Z
      else let i := findIndex p arr' in
           if (i <? 0)%Z then (-1)%Z else (i + 1)%Z
  end.

Definition getCurrentStepIndex (currentStage : string) : Z :=
  findIndex (fun step => String.eqb (id step) currentStage) steps.

Record Flags := { isCompleted : bool; isCurrent : bool; isUpcoming : bool }.

(** The three flags computed for the step at [index]. *)
Definition flags (currentStepIndex index : Z) : Flags :=
  {| isCompleted := (index <? currentStepIndex)%Z;
     isCurrent := (index =? currentStepIndex)%Z;
     isUpcoming := (index >? currentStepIndex)%Z |}.

(** [steps.map((step, index) => ...)], as far as the flags go. *)
Definition rendered_steps (currentStage : string) : list (Step * Flags) :=
  map (fun '(index, step) => (step, flags (getCurrentStepIndex currentStage) index))
      (indexed steps).

(** The line under the stepper; [steps[i].title] on a missing step
    would throw. *)
Definition current_step_info (currentStage : string) : Completion string :=
  let currentStepIndex := getCurrentStepIndex currentStage in
  if (currentStepIndex >=? 0)%Z
     && (currentStepIndex <? Z.of_nat (List.length steps))%Z
  then match JS.index steps currentStepIndex with
       | Some step =>
           Normal ("Step " ++ JS.show (Z.to_N (currentStepIndex + 1))
                   ++ " of " ++ JS.show (N.of_nat (List.length steps))
                   ++ ": " ++ title step)
       | None => Abrupt (ErrorObject "Cannot read properties of undefined (reading 'title')")
       end
  else Normal "Initializing...".

End Stepper.

(** * The document checklist: [Checklist] *)

Module Checklist.

Inductive Status := pending | uploaded | verified | rejected.

(** [interface ChecklistItem], without its icon. *)
Record ChecklistItem := {
  id : string;
  title : string;
  description : string;
  status : Status;
  required : bool;
  tips : list string
}.

Definition documentItems : list ChecklistItem :=
  [ {| id := "pan_card"; title := "PAN Card";
       description := "Permanent Account Number card for identity verification";
       status := pending; required := true;
       tips := [ "Ensure the card is clearly visible";
                 "All corners should be in frame";
                 "Text should be readable without glare" ] |};
    {| id := "aadhaar_card"; title := "Aadhaar Card";
       description := "Government issued identity document";
       status := pending; required := true;
       tips := [ "Both front and back required";
                 "QR code should be visible";
                 "Avoid shadows and reflections" ] |};
    {| id := "bank_proof"; title := "Bank Statement";
       description := "Recent bank statement or passbook";
       status := pending; required := true;
       tips := [ "Statement should be recent (within 3 months)";
                 "Bank letterhead must be visible";
                 "Account details should be clear" ] |} ].

(** [{ ...item, status }] *)
Definition with_status (item : ChecklistItem) (s : Status) : ChecklistItem :=
  {| id := id item; title := title item; description := description item;
     status := s; required := required item; tips := tips item |}.

(** The update the timer applies to [items]. *)
Definition simulated_update (prev : list ChecklistItem) : list ChecklistItem :=
  map (fun '(index, item) =>
         if (index =? 0)%Z then with_status item uploaded
         else if (index =? 1)%Z then with_status item verified
         else item)
      (indexed prev).

(** [item.status === 'verified' || item.status === 'uploaded'] *)
Definition counts_as_completed (item : ChecklistItem) : bool :=
  match status item with
  | verified | uploaded => true
  | pending | rejected => false
  end.

Definition completedItems (items : list ChecklistItem) : nat :=
  List.length (filter counts_as_completed items).

(** What the effect passes to [onDocumentStatus]. *)
Record DocumentStatus := { completed : nat; total : nat }.

Definition document_status (items : list ChecklistItem) : DocumentStatus :=
  {| completed := completedItems items; total := List.length items |}.

End Checklist.

Close Scope handler_scope.

(** * Notions used to state the properties *)

(** The outbound sender has no active connection. *)
Definition not_connected (w : World) : Prop :=
  roomRef (hook w) = None \/ isConnected (hook w) = false.

Definition is_publish (c : ClientCall) : bool :=
  match c with PublishData _ _ _ => true | _ => false end.
Definition is_connect (c : ClientCall) : bool :=
  match c with RoomConnect _ _ _ => true | _ => false end.
Definition is_new_room (c : ClientCall) : bool :=
  match c with NewRoom _ => true | _ => false end.

(** How often the program asked the media client for something. *)
Definition count_calls (p : ClientCall -> bool) (w : World) : nat :=
  List.length (filter p (calls (outside w))).

(** The connection attempt fails with [e]: at the connect call, or when
    the microphone is enabled. *)
Definition connection_fails (env : ConnectEnv) (e : Thrown) : Prop :=
  connect_outcome env = Some e
  \/ (connect_outcome env = None /\ microphone_outcome env = Some e).

(** A string between double quotes, as it stands on the wire. *)
Definition quoted (s : string) : string := JS.dquote ++ s ++ JS.dquote.

(** The bytes of [{type:"payment_choice", selection:"nbfc_loan"}]. *)
Definition payment_choice_nbfc_loan : string :=
  "{" ++ quoted "type" ++ ":" ++ quoted "payment_choice" ++ ","
      ++ quoted "selection" ++ ":" ++ quoted "nbfc_loan" ++ "}".

(** What [disconnect] is said to establish. *)
Definition disconnected_and_cleared (before after_ : World) : Prop :=
  isConnected (hook after_) = false
  /\ participants (hook after_) = []
  /\ audioTracks (hook after_) = []
  /\ messages (hook after_) =
       (messages (hook before) ++ [LiveKitMessage.connection_status "disconnected"])%list.

(** A decoder for the examples: it knows two payloads and throws on
    every other one. *)
Definition wire_state_update_payment : string :=
  JS.stringify [("type", "state_update"); ("stage", "PAYMENT_SELECTION")].
Definition wire_transcript_hello : string :=
  JS.stringify [("type", "transcript_update"); ("transcript", "hello")].

Definition sample_decoder (payload : string) : Thrown + LiveKitMessage.t :=
  if String.eqb payload wire_state_update_payment
  then inr (LiveKitMessage.state_update "PAYMENT_SELECTION")
  else if String.eqb payload wire_transcript_hello
  then inr {| LiveKitMessage.type := "transcript_update";
              LiveKitMessage.stage := None;
              LiveKitMessage.transcript := Some "hello";
              LiveKitMessage.error := None;
              LiveKitMessage.status := None;
              LiveKitMessage.data := None |}
  else inl (ErrorObject "Unexpected token").

(** A world in which room [0] is held and connected. *)
Definition connected_world (t0 : N) : World :=
  set_roomRef (Some 0) (setRoom (Some 0) (setIsConnected true (initial_world t0))).

(** A connection attempt during which the server accepts two
    participants and the microphone is then refused. *)
Definition microphone_refused : ConnectEnv :=
  {| while_connecting := [EvConnected; EvParticipantConnected 7];
     connect_outcome := None;
     while_enabling_microphone := [];
     microphone_outcome := Some (ErrorObject "Permission denied") |}.

Definition server_unreachable : ConnectEnv :=
  {| while_connecting := [];
     connect_outcome := Some (ErrorObject "could not establish signal connection");
     while_enabling_microphone := [];
     microphone_outcome := None |}.

(** A [transcript_update] message that passes the guard on its text,
    flagged partial, respectively not flagged partial. *)
Definition partial_update (m : LiveKitMessage.t) : bool :=
  String.eqb (LiveKitMessage.type m) "transcript_update"
  && JS.truthy_opt (LiveKitMessage.transcript m)
  && LiveKitMessage.data_isPartial m.

Definition final_update (m : LiveKitMessage.t) : bool :=
  String.eqb (LiveKitMessage.type m) "transcript_update"
  && JS.truthy_opt (LiveKitMessage.transcript m)
  && negb (LiveKitMessage.data_isPartial m).

(** A run as the property describes it: all but the last partial, the
    last one not. *)
Fixpoint partial_run (run : list LiveKitMessage.t) : bool :=
  match run with
  | [] => false
  | [f] => final_update f
  | p :: rest => partial_update p && partial_run rest
  end.

Definition text_of (m : LiveKitMessage.t) : string :=
  match LiveKitMessage.transcript m with Some txt => txt | None => "" end.

(** The transcript entry the handler builds for a transcript update at
    clock reading [t]. *)
Definition entry_for (t : N) (m : LiveKitMessage.t) : TranscriptMessage.t :=
  {| TranscriptMessage.id := "transcript-" ++ JS.show t;
     TranscriptMessage.text := text_of m;
     TranscriptMessage.speaker := agent;
     TranscriptMessage.timestamp := t;
     TranscriptMessage.isPartial := Some (LiveKitMessage.data_isPartial m) |}.

(** The transcript ends with an entry flagged partial. *)
Definition ends_partial (entries : list TranscriptMessage.t) : bool :=
  match JS.last entries with
  | Some e => TranscriptMessage.partial e
  | None => false
  end.

(** The transcript once the partial messages [ps] have been handled:
    none leaves it as it is; otherwise a trailing partial entry is
    dropped and one entry, for the last of [ps], stands at the end. *)
Definition coalesced (t : N) (ps : list LiveKitMessage.t)
    (entries : list TranscriptMessage.t) : list TranscriptMessage.t :=
  match JS.last ps with
  | None => entries
  | Some p =>
      ((if ends_partial entries then JS.slice_0_m1 entries else entries)
       ++ [entry_for t p])%list
  end.

(** The property as the specification words it: handling the run adds
    exactly one entry to the transcript, with the text of the last
    message of the run. *)
Definition one_entry_for_run (run : list LiveKitMessage.t) (w : World) : Prop :=
  exists entry,
    transcript (view (forEach_handleLiveKitMessage run w))
    = (transcript (view w) ++ [entry])%list
    /\ option_map text_of (JS.last run) = Some (TranscriptMessage.text entry).

Definition is_disconnect (c : ClientCall) : bool :=
  match c with RoomDisconnect _ => true | _ => false end.

(** What [sendData] asks of the media client in a given state. *)
Definition published_by (message : JS.object) (w : World) : list ClientCall :=
  match roomRef (hook w), isConnected (hook w) with
  | Some r, true => [PublishData r (JS.stringify message) true]
  | _, _ => []
  end.

(** A [state_update] message that passes the guard on its stage. *)
Definition stage_update (m : LiveKitMessage.t) : bool :=
  String.eqb (LiveKitMessage.type m) "state_update"
  && JS.truthy_opt (LiveKitMessage.stage m).

(** The four kinds the dispatcher has a case for. *)
Definition known_kinds : list string :=
  ["state_update"; "transcript_update"; "connection_status"; "error"].

(** A connection attempt in which the room connects, reports it, and
    the microphone is enabled. *)
Definition server_accepts : ConnectEnv :=
  {| while_connecting := [EvConnected];
     connect_outcome := None;
     while_enabling_microphone := [];
     microphone_outcome := None |}.

(** The tracks the listeners attach and play while [events] are
    dispatched. *)
Definition attached_by (events : list RoomEvent) : list ClientCall :=
  flat_map (fun e =>
              match e with
              | EvTrackSubscribed t _ =>
                  match kind t with Audio => [AttachAndPlay t] | Video => [] end
              | _ => []
              end) events.

(** The token [connect] hands to the room. *)
Definition placeholder_token (props : UseLiveKitProps) : string :=
  "placeholder-token-for-" ++ userName props ++ "-in-" ++ roomName props.

Definition token_used (props : UseLiveKitProps) : string :=
  match token props with
  | Some t => if JS.truthy t then t else placeholder_token props
  | None => placeholder_token props
  end.

(** Every call [connect] makes on the media client once it is past its
    guard, for the room [r] it creates. *)
Definition calls_of_connect (props : UseLiveKitProps) (env : ConnectEnv) (r : Room)
    : list ClientCall :=
  (NewRoom r :: map (On r) all_events
   ++ [RoomConnect r (serverUrl props) (token_used props)]
   ++ attached_by (while_connecting env)
   ++ match connect_outcome env with
      | Some _ => []
      | None => SetMicrophoneEnabled r true
                :: attached_by (while_enabling_microphone env)
      end)%list.

(** A held room is one that [connect] created and asked to connect. *)
Definition held_room_was_connected (w : World) : Prop :=
  forall r, roomRef (hook w) = Some r ->
    (r < rooms_created (outside w))%nat
    /\ exists url tok, In (RoomConnect r url tok) (calls (outside w)).

(** What every reachable state of the session satisfies. *)
Definition session_invariant (w : World) : Prop :=
  room (hook w) = roomRef (hook w)
  /\ held_room_was_connected w
  /\ Forall (fun t => kind t = Audio) (audioTracks (hook w)).

(** A step that leaves the room, the tracks and the messages alone and
    only adds calls. *)
Definition quiet (w w' : World) : Prop :=
  room (hook w') = room (hook w)
  /\ roomRef (hook w') = roomRef (hook w)
  /\ audioTracks (hook w') = audioTracks (hook w)
  /\ messages (hook w') = messages (hook w)
  /\ rooms_created (outside w') = rooms_created (outside w)
  /\ exists suffix, calls (outside w') = (calls (outside w) ++ suffix)%list.

(** [messages] of [w'] extends [messages] of [w]. *)
Definition messages_extend (w w' : World) : Prop :=
  exists suffix, messages (hook w') = (messages (hook w) ++ suffix)%list.

(** An array-index key: a non-empty run of decimal digits. *)
Definition is_digit (c : ascii) : bool :=
  let n := nat_of_ascii c in (48 <=? n)%nat && (n <=? 57)%nat.

Fixpoint all_digits (s : string) : bool :=
  match s with
  | EmptyString => true
  | String c s' => is_digit c && all_digits s'
  end.

Definition index_like (k : string) : bool := JS.truthy k && all_digits k.

Fixpoint distinct (ks : list string) : bool :=
  match ks with
  | [] => true
  | k :: ks' => negb (existsb (String.eqb k) ks') && distinct ks'
  end.

(** The objects whose properties are enumerated in the order they were
    written: distinct keys, none of them an array index. *)
Definition insertion_ordered (o : JS.object) : bool :=
  distinct (map fst o) && forallb (fun k => negb (index_like k)) (map fst o).

(** The auto-connect effect over the renders that follow one another
    while the connection keeps settling: each settled attempt changes
    [isConnecting] and the identity of [connect], the deps of the
    effect, so the effect runs again. *)
Definition auto_connect_rounds (parse : string -> Thrown + LiveKitMessage.t)
    (props : UseLiveKitProps) (envs : list ConnectEnv) (w : World) : World :=
  fold_left (fun w' env => after (autoConnectEffect parse props env) w') envs w.

(** * Shared facts *)

Lemma addMessage_messages (m : LiveKitMessage.t) (w : World) :
  messages (hook (addMessage m w)) = (messages (hook w) ++ [m])%list.
Proof. reflexivity. Qed.

(** [sendData] always settles normally, and leaves the view alone. *)
Lemma sendData_completion (o : option Thrown) (msg : JS.object) (w : World) :
  completion (sendData o msg) w = Normal tt.
Proof.
  unfold completion, sendData, bind, read.
  destruct (roomRef (hook w)) as [r|]; [destruct (isConnected (hook w))|];
    try reflexivity.
  destruct o as [e|]; reflexivity.
Qed.

Lemma sendData_view (o : option Thrown) (msg : JS.object) (w : World) :
  view (after (sendData o msg) w) = view w.
Proof.
  unfold after, sendData, bind, read.
  destruct (roomRef (hook w)) as [r|]; [destruct (isConnected (hook w))|];
    try reflexivity.
  destruct o as [e|]; reflexivity.
Qed.

(** * The outbound sender *)

(** C5: while not connected, [sendData] calls nothing on the media
    client (no publish), settles normally (it neither throws nor
    rejects), leaves the hook state, the view, the toasts and the timers
    as they were, and writes one warning to the console. *)
Theorem C5_sendData_not_connected :
  forall (o : option Thrown) (message : JS.object) (w : World),
    not_connected w ->
    let w' := after (sendData o message) w in
    completion (sendData o message) w = Normal tt
    /\ calls (outside w') = calls (outside w)
    /\ count_calls is_publish w' = count_calls is_publish w
    /\ hook w' = hook w
    /\ view w' = view w
    /\ toasts (outside w') = toasts (outside w)
    /\ console (outside w') =
         (console (outside w) ++
          [{| level := warn; label := "Cannot send data: Room not connected";
              arg := ArgNone |}])%list.
Proof.
  intros o message w Hnc.
  assert (Hrun : sendData o message w =
                 (Normal tt,
                  console_write warn "Cannot send data: Room not connected" ArgNone w)).
  { unfold sendData, bind, read. destruct Hnc as [Href | Hcon].
    - rewrite Href. reflexivity.
    - rewrite Hcon. destruct (roomRef (hook w)); reflexivity. }
  unfold after, completion, count_calls. rewrite Hrun. cbn.
  repeat split; reflexivity.
Qed.

Lemma C5_sendData_not_connected_witness :
  let w := initial_world 0 in
  let message := [("type", "payment_choice"); ("selection", "nbfc_loan")] in
  completion (sendData None message) w = Normal tt
  /\ calls (outside (after (sendData None message) w)) = [].
Proof.
  intros w message.
  pose proof (C5_sendData_not_connected None message w (or_introl eq_refl)) as H.
  split; [exact (proj1 H) | exact (proj1 (proj2 H))].
Defined.

(** * The session connector *)

Section Connector.

Variable JSON_parse : string -> Thrown + LiveKitMessage.t.

(** C7: when the state is already connecting or connected, [connect]
    returns at its guard: no room is created, no listener registered,
    no call made, and no part of the state changes. *)
Theorem C7_connect_guard :
  forall (props : UseLiveKitProps) (env : ConnectEnv) (w : World),
    isConnecting (hook w) = true \/ isConnected (hook w) = true ->
    connect JSON_parse props env w = (Normal tt, w).
Proof.
  intros props env w H. unfold connect, bind, read.
  destruct H as [H | H]; rewrite H.
  - reflexivity.
  - rewrite orb_true_r. reflexivity.
Qed.

(** C8: a payload the decoder throws on is logged and dropped: the
    listener returns, the hook state (messages, connection flags,
    error) and the view (transcript, stage) are unchanged, no call is
    made, no toast shown; one error line is written to the console. *)
Theorem C8_malformed_payload_dropped :
  forall (payload : string) (err : Thrown) (w : World),
    JSON_parse payload = inl err ->
    let w' := room_event JSON_parse (EvDataReceived payload) w in
    hook w' = hook w
    /\ view w' = view w
    /\ calls (outside w') = calls (outside w)
    /\ toasts (outside w') = toasts (outside w)
    /\ w' = console_write err_level "Error parsing received data:" (ArgThrown err) w.
Proof.
  intros payload err w H. unfold room_event. cbn [listener]. rewrite H.
  cbn. rewrite Nat.eqb_refl. repeat split; reflexivity.
Qed.

End Connector.

Lemma C7_connect_guard_witness :
  connect sample_decoder (props_of "asha") server_unreachable (connected_world 0)
  = (Normal tt, connected_world 0).
Proof.
  apply (C7_connect_guard sample_decoder (props_of "asha") server_unreachable
           (connected_world 0)).
  right. reflexivity.
Defined.

Lemma C8_malformed_payload_dropped_witness :
  let w := connected_world 0 in
  let w' := room_event sample_decoder (EvDataReceived "{type:") w in
  hook w' = hook w /\ view w' = view w.
Proof.
  intros w w'.
  pose proof (C8_malformed_payload_dropped sample_decoder "{type:"
                (ErrorObject "Unexpected token") w eq_refl) as H.
  split; [exact (proj1 H) | exact (proj1 (proj2 H))].
Defined.

(** Room events make no connect call, create no room, and leave [room]
    and [roomRef] alone. *)
Lemma dispatch_calls_connect (parse : string -> Thrown + LiveKitMessage.t)
    (events : list RoomEvent) (w : World) :
  count_calls is_connect (dispatch parse events w) = count_calls is_connect w
  /\ count_calls is_new_room (dispatch parse events w) = count_calls is_new_room w
  /\ room (hook (dispatch parse events w)) = room (hook w)
  /\ roomRef (hook (dispatch parse events w)) = roomRef (hook w).
Proof.
  revert w. induction events as [|e events IH]; intro w.
  - repeat split; reflexivity.
  - change (dispatch parse (e :: events) w)
      with (dispatch parse events (listener parse e w)).
    destruct (IH (listener parse e w)) as (H1 & H2 & H3 & H4).
    rewrite H1, H2, H3, H4. clear IH H1 H2 H3 H4.
    unfold count_calls.
    destruct e as [ | reason | payload | t identity | t | p | p ]; cbn [listener].
    + repeat split; reflexivity.
    + repeat split; reflexivity.
    + destruct (parse payload); repeat split; reflexivity.
    + destruct t as [i k]; destruct k; cbn.
      * rewrite filter_app, filter_app. cbn. rewrite !app_nil_r.
        repeat split; reflexivity.
      * repeat split; reflexivity.
    + destruct t as [i k]; destruct k; repeat split; reflexivity.
    + repeat split; reflexivity.
    + repeat split; reflexivity.
Qed.

Lemma count_calls_snoc (p : ClientCall -> bool) (cs : list ClientCall) (c : ClientCall) :
  List.length (filter p (cs ++ [c])) =
  (List.length (filter p cs) + (if p c then 1 else 0))%nat.
Proof.
  rewrite filter_app, length_app. cbn. destruct (p c); reflexivity.
Qed.

Lemma dispatch_count_connect (parse : string -> Thrown + LiveKitMessage.t)
    (events : list RoomEvent) (w : World) :
  count_calls is_connect (dispatch parse events w) = count_calls is_connect w.
Proof. apply dispatch_calls_connect. Qed.

Lemma dispatch_count_new_room (parse : string -> Thrown + LiveKitMessage.t)
    (events : list RoomEvent) (w : World) :
  count_calls is_new_room (dispatch parse events w) = count_calls is_new_room w.
Proof. apply dispatch_calls_connect. Qed.

Lemma dispatch_room (parse : string -> Thrown + LiveKitMessage.t)
    (events : list RoomEvent) (w : World) :
  room (hook (dispatch parse events w)) = room (hook w).
Proof. apply dispatch_calls_connect. Qed.

Lemma dispatch_roomRef (parse : string -> Thrown + LiveKitMessage.t)
    (events : list RoomEvent) (w : World) :
  roomRef (hook (dispatch parse events w)) = roomRef (hook w).
Proof. apply dispatch_calls_connect. Qed.

Lemma count_calls_call (p : ClientCall -> bool) (c : ClientCall) (w : World) :
  count_calls p (call c w) = (count_calls p w + (if p c then 1 else 0))%nat.
Proof. unfold count_calls. cbn. apply count_calls_snoc. Qed.

Lemma count_calls_new_room_listeners (p : ClientCall -> bool) (r : Room) (w : World) :
  count_calls p
    (with_calls (fun cs => (cs ++ NewRoom r :: map (On r) all_events)%list) S w)
  = (count_calls p w
     + List.length (filter p (NewRoom r :: map (On r) all_events)))%nat.
Proof. unfold count_calls. cbn [with_calls on_outside outside calls]. now rewrite filter_app, length_app. Qed.

Lemma count_calls_setIsConnecting p b w :
  count_calls p (setIsConnecting b w) = count_calls p w.
Proof. reflexivity. Qed.
Lemma count_calls_setIsConnected p b w :
  count_calls p (setIsConnected b w) = count_calls p w.
Proof. reflexivity. Qed.
Lemma count_calls_setError p v w :
  count_calls p (setError v w) = count_calls p w.
Proof. reflexivity. Qed.
Lemma count_calls_console_write p l lbl a w :
  count_calls p (console_write l lbl a w) = count_calls p w.
Proof. reflexivity. Qed.

Create Rewrite HintDb client_calls.
#[local] Hint Rewrite
  count_calls_setIsConnecting count_calls_setIsConnected count_calls_setError
  count_calls_console_write dispatch_count_connect dispatch_count_new_room
  count_calls_call count_calls_new_room_listeners : client_calls.

(** X24: one call of [connect] whose connection attempt fails (at the
    connect call or when the microphone is enabled) settles normally
    with the error string set to the failure text, [isConnected] and
    [isConnecting] both false, no room held that was not held before;
    within that call one room is created and the media client is asked
    to connect once. *)
Theorem connect_fails_softly :
  forall (JSON_parse : string -> Thrown + LiveKitMessage.t)
         (props : UseLiveKitProps) (env : ConnectEnv) (e : Thrown) (w : World),
    isConnecting (hook w) = false ->
    isConnected (hook w) = false ->
    connection_fails env e ->
    let w' := after (connect JSON_parse props env) w in
    completion (connect JSON_parse props env) w = Normal tt
    /\ error (hook w') = Some ("Connection failed: " ++ error_text e)
    /\ isConnected (hook w') = false
    /\ isConnecting (hook w') = false
    /\ room (hook w') = room (hook w)
    /\ roomRef (hook w') = roomRef (hook w)
    /\ count_calls is_connect w' = S (count_calls is_connect w)
    /\ count_calls is_new_room w' = S (count_calls is_new_room w).
Proof.
  intros parse props env e w Hing Hed Hfail.
  unfold after, completion, connect, bind, read. rewrite Hing, Hed. cbn [orb].
  unfold try_finally, try_catch, new_Room_with_listeners, generateToken,
    bind, read, act, ret, await, throw.
  destruct (JS.truthy_opt (token props));
    (destruct Hfail as [Hc | [Hc Hm]]; rewrite Hc; [| rewrite Hm]);
    unfold ret; cbv beta iota zeta; cbn [fst snd];
    repeat split;
    try reflexivity;
    try (cbn [setIsConnecting setIsConnected setError console_write on_hook
              on_outside hook room roomRef];
         rewrite ?dispatch_room, ?dispatch_roomRef; cbn;
         rewrite ?dispatch_room, ?dispatch_roomRef; reflexivity);
    try (autorewrite with client_calls; cbn; lia).
Qed.

Lemma connect_fails_softly_witness :
  let w' := after (connect sample_decoder (props_of "asha") microphone_refused)
                  (initial_world 0) in
  error (hook w') = Some "Connection failed: Permission denied"
  /\ isConnected (hook w') = false
  /\ isConnecting (hook w') = false.
Proof.
  intro w'.
  pose proof (connect_fails_softly sample_decoder (props_of "asha")
                microphone_refused (ErrorObject "Permission denied")
                (initial_world 0) eq_refl eq_refl
                (or_intror (conj eq_refl eq_refl))) as H.
  split; [exact (proj1 (proj2 H)) |].
  split; [exact (proj1 (proj2 (proj2 H))) | exact (proj1 (proj2 (proj2 (proj2 H))))].
Defined.

(** Outside [connect]: the state a failed attempt leaves satisfies the
    test of the auto-connect effect of [AgentInterface]; when that effect
    runs again it calls [connect], which clears the error string and
    asks the media client to connect a second time. *)
Lemma autoConnectEffect_after_failed_connect :
  let w1 := after (connect sample_decoder (props_of "asha") server_unreachable)
                  (initial_world 0) in
  let w2 := after (autoConnectEffect sample_decoder (props_of "asha") server_unreachable)
                  w1 in
  count_calls is_connect w1 = 1%nat
  /\ count_calls is_connect w2 = 2%nat.
Proof. split; reflexivity. Qed.

(** C4, as stated, fails where no room is held: after a connection
    attempt during which a participant joined and the microphone was
    then refused, [disconnect] changes nothing; the participant list
    stays non-empty and no status message is appended. *)
Lemma C4_counterexample :
  let w := after (connect sample_decoder (props_of "asha") microphone_refused)
                 (initial_world 0) in
  participants (hook (disconnect w)) = [7%nat]
  /\ messages (hook (disconnect w)) = messages (hook w)
  /\ ~ disconnected_and_cleared w (disconnect w).
Proof.
  cbv zeta. split; [vm_compute; reflexivity | split; [vm_compute; reflexivity |]].
  intros (_ & Hp & _). vm_compute in Hp. discriminate Hp.
Qed.

(** C4 (amended): when a room is held, [disconnect] asks that room to
    disconnect, drops it from [room] and [roomRef], leaves [isConnected]
    false, clears the participant and audio-track lists and appends
    exactly one [connection_status] message with status "disconnected";
    [isConnecting] is not touched.  When no room is held, [disconnect]
    changes nothing. *)
Theorem C4_disconnect :
  forall (w : World),
    (forall r, roomRef (hook w) = Some r ->
       disconnected_and_cleared w (disconnect w)
       /\ room (hook (disconnect w)) = None
       /\ roomRef (hook (disconnect w)) = None
       /\ isConnecting (hook (disconnect w)) = isConnecting (hook w)
       /\ calls (outside (disconnect w)) = (calls (outside w) ++ [RoomDisconnect r])%list
       /\ view (disconnect w) = view w)
    /\ (roomRef (hook w) = None -> disconnect w = w).
Proof.
  intro w. split.
  - intros r Hr. unfold disconnect, disconnected_and_cleared. rewrite Hr.
    repeat split.
  - intro Hr. unfold disconnect. rewrite Hr. reflexivity.
Qed.

Lemma C4_disconnect_witness :
  disconnected_and_cleared (connected_world 0) (disconnect (connected_world 0))
  /\ disconnect (initial_world 0) = initial_world 0.
Proof.
  split.
  - apply (proj1 (C4_disconnect (connected_world 0)) 0%nat). reflexivity.
  - apply (proj2 (C4_disconnect (initial_world 0))). reflexivity.
Defined.

(** [disconnect] is idempotent: a second call finds no room. *)
Lemma disconnect_idempotent (w : World) :
  disconnect (disconnect w) = disconnect w.
Proof.
  unfold disconnect at 2 3.
  destruct (roomRef (hook w)) as [r|] eqn:Hr.
  - reflexivity.
  - unfold disconnect. rewrite Hr. reflexivity.
Qed.

(** * Payment selection *)

(** C9: with a room held and connected, selecting "nbfc_loan" makes
    exactly one publish call, carrying the bytes of
    [{type:"payment_choice", selection:"nbfc_loan"}], sent reliably on
    the held room, and appends exactly one transcript entry, of speaker
    [user], whose text is "Selected payment method: nbfc loan". *)
Theorem C9_payment_select_nbfc_loan :
  forall (publish_outcome : option Thrown) (r : Room) (w : World),
    roomRef (hook w) = Some r ->
    isConnected (hook w) = true ->
    let w' := after (handlePaymentSelect publish_outcome "nbfc_loan") w in
    completion (handlePaymentSelect publish_outcome "nbfc_loan") w = Normal tt
    /\ calls (outside w') =
         (calls (outside w) ++ [PublishData r payment_choice_nbfc_loan true])%list
    /\ count_calls is_publish w' = S (count_calls is_publish w)
    /\ exists entry,
         transcript (view w') = (transcript (view w) ++ [entry])%list
         /\ TranscriptMessage.speaker entry = user
         /\ TranscriptMessage.text entry = "Selected payment method: nbfc loan"
         /\ JS.includes "nbfc loan" (TranscriptMessage.text entry) = true.
Proof.
  intros o r w Href Hcon.
  unfold after, completion, handlePaymentSelect, try_finally, try_catch,
    sendData, bind, read, act.
  cbn [hook setIsPaymentProcessing on_view]. rewrite Href, Hcon.
  destruct o as [e|]; cbn [await throw ret fst snd]; cbv beta iota zeta;
    (split; [reflexivity |]);
    (split; [reflexivity |]);
    (split; [unfold count_calls; cbn; rewrite count_calls_snoc; cbn; lia |]);
    eexists; (split; [reflexivity |]); repeat split.
Qed.

Lemma C9_payment_select_nbfc_loan_witness :
  let w' := after (handlePaymentSelect None "nbfc_loan") (connected_world 0) in
  calls (outside w') = [PublishData 0 payment_choice_nbfc_loan true]
  /\ List.length (transcript (view w')) = 1%nat.
Proof.
  intro w'.
  pose proof (C9_payment_select_nbfc_loan None 0%nat (connected_world 0)
                eq_refl eq_refl) as H.
  split; [exact (proj1 (proj2 H)) |].
  destruct (proj2 (proj2 (proj2 H))) as [entry [Ht _]].
  unfold w'. rewrite Ht. reflexivity.
Defined.

(** * Stage navigation *)

Lemma sendData_then (o : option Thrown) (msg : JS.object) (k : M unit) (w : World) :
  bind (sendData o msg) (fun _ => k) w = k (after (sendData o msg) w).
Proof.
  unfold bind, after. pose proof (sendData_completion o msg w) as Hc.
  unfold completion in Hc. destruct (sendData o msg w) as [c w']. cbn in *.
  rewrite Hc. reflexivity.
Qed.

Lemma bind_read {A B} (f : World -> A) (k : A -> M B) (w : World) :
  bind (read f) k w = k (f w) w.
Proof. reflexivity. Qed.

Lemma bind_act {B} (f : World -> World) (k : unit -> M B) (w : World) :
  bind (act f) k w = k tt (f w).
Proof. reflexivity. Qed.

(** A forward move that passes the guard sets the stage it read from
    [STAGES] and settles normally. *)
Lemma goToNextStage_moves (o : option Thrown) (w : World) (nextStage : string) :
  (JS.indexOf STAGES (currentStage (view w)) <? 3)%Z = true ->
  JS.index STAGES (JS.indexOf STAGES (currentStage (view w)) + 1) = Some nextStage ->
  completion (goToNextStage o) w = Normal tt
  /\ currentStage (view (after (goToNextStage o) w)) = nextStage.
Proof.
  intros Hlt Hidx. unfold completion, after, goToNextStage.
  rewrite bind_read.
  change (Z.of_nat (List.length STAGES) - 1)%Z with 3%Z.
  rewrite Hlt, Hidx.
  rewrite bind_act, bind_read, bind_act, sendData_then.
  unfold act. cbn [fst snd].
  split; [reflexivity |].
  cbn [toast on_outside view]. rewrite sendData_view. reflexivity.
Qed.

Lemma goToPreviousStage_moves (o : option Thrown) (w : World) (previousStage : string) :
  (JS.indexOf STAGES (currentStage (view w)) >? 0)%Z = true ->
  JS.index STAGES (JS.indexOf STAGES (currentStage (view w)) - 1) = Some previousStage ->
  completion (goToPreviousStage o) w = Normal tt
  /\ currentStage (view (after (goToPreviousStage o) w)) = previousStage.
Proof.
  intros Hgt Hidx. unfold completion, after, goToPreviousStage.
  rewrite bind_read. rewrite Hgt, Hidx.
  rewrite bind_act, bind_read, bind_act, sendData_then.
  unfold act. cbn [fst snd].
  split; [reflexivity |].
  cbn [toast on_outside view]. rewrite sendData_view. reflexivity.
Qed.

Lemma goToNextStage_at_boundary (o : option Thrown) (w : World) :
  (JS.indexOf STAGES (currentStage (view w)) <? 3)%Z = false ->
  goToNextStage o w = (Normal tt, w).
Proof.
  intro H. unfold goToNextStage, bind, read.
  change (Z.of_nat (List.length STAGES) - 1)%Z with 3%Z. rewrite H. reflexivity.
Qed.

Lemma goToPreviousStage_at_boundary (o : option Thrown) (w : World) :
  (JS.indexOf STAGES (currentStage (view w)) >? 0)%Z = false ->
  goToPreviousStage o w = (Normal tt, w).
Proof.
  intro H. unfold goToPreviousStage, bind, read. rewrite H. reflexivity.
Qed.

(** One button press keeps the stage among the four, and the handler
    settles normally. *)
Lemma navigate_keeps_stage (step : Navigation * option Thrown) (w : World) :
  In (currentStage (view w)) STAGES ->
  completion (navigate step) w = Normal tt
  /\ In (currentStage (view (after (navigate step) w))) STAGES.
Proof.
  intro Hin. destruct step as [[|] o]; cbn [navigate].
  - (* next *)
    cbn in Hin.
    destruct Hin as [H | [H | [H | [H | []]]]].
    + destruct (goToNextStage_moves o w "PAYMENT_SELECTION") as [Hc Hs];
        try (rewrite <- H; reflexivity).
      split; [exact Hc | rewrite Hs; cbn; tauto].
    + destruct (goToNextStage_moves o w "NBFC_PROCESS") as [Hc Hs];
        try (rewrite <- H; reflexivity).
      split; [exact Hc | rewrite Hs; cbn; tauto].
    + destruct (goToNextStage_moves o w "RCA_DOCS") as [Hc Hs];
        try (rewrite <- H; reflexivity).
      split; [exact Hc | rewrite Hs; cbn; tauto].
    + unfold completion, after.
      rewrite goToNextStage_at_boundary by (rewrite <- H; reflexivity).
      cbn [fst snd]. split; [reflexivity | rewrite <- H; cbn; tauto].
  - (* previous *)
    cbn in Hin.
    destruct Hin as [H | [H | [H | [H | []]]]].
    + unfold completion, after.
      rewrite goToPreviousStage_at_boundary by (rewrite <- H; reflexivity).
      cbn [fst snd]. split; [reflexivity | rewrite <- H; cbn; tauto].
    + destruct (goToPreviousStage_moves o w "GREETING") as [Hc Hs];
        try (rewrite <- H; reflexivity).
      split; [exact Hc | rewrite Hs; cbn; tauto].
    + destruct (goToPreviousStage_moves o w "PAYMENT_SELECTION") as [Hc Hs];
        try (rewrite <- H; reflexivity).
      split; [exact Hc | rewrite Hs; cbn; tauto].
    + destruct (goToPreviousStage_moves o w "NBFC_PROCESS") as [Hc Hs];
        try (rewrite <- H; reflexivity).
      split; [exact Hc | rewrite Hs; cbn; tauto].
Qed.

Lemma navigation_keeps_stage (steps : list (Navigation * option Thrown)) (w : World) :
  In (currentStage (view w)) STAGES ->
  In (currentStage (view (navigation steps w))) STAGES.
Proof.
  revert w. induction steps as [|step steps IH]; intros w Hin.
  - exact Hin.
  - change (navigation (step :: steps) w)
      with (navigation steps (after (navigate step) w)).
    apply IH. apply navigate_keeps_stage. exact Hin.
Qed.

Lemma indexOf_STAGES_range (s : string) :
  In s STAGES -> (0 <= JS.indexOf STAGES s <= 3)%Z.
Proof.
  cbn. intros [H | [H | [H | [H | []]]]]; rewrite <- H; cbn; lia.
Qed.

(** C3: from the initial stage, after any sequence of next/previous
    presses (whatever the outcome of the publishes they start), the
    current stage is one of the four fixed stages and its index lies
    between 0 and 3; [previous] at the first stage and [next] at the last
    stage return without changing anything. *)
Theorem C3_navigation_within_stages :
  forall (steps : list (Navigation * option Thrown)) (o : option Thrown) (w : World),
    let start := setCurrentStage "GREETING" w in
    let stage := currentStage (view (navigation steps start)) in
    In stage STAGES
    /\ (0 <= JS.indexOf STAGES stage <= Z.of_nat (List.length STAGES) - 1)%Z
    /\ goToPreviousStage o (setCurrentStage "GREETING" w)
       = (Normal tt, setCurrentStage "GREETING" w)
    /\ goToNextStage o (setCurrentStage "RCA_DOCS" w)
       = (Normal tt, setCurrentStage "RCA_DOCS" w).
Proof.
  intros steps o w start stage.
  assert (Hin : In stage STAGES).
  { apply navigation_keeps_stage. cbn. tauto. }
  split; [exact Hin |].
  split; [apply indexOf_STAGES_range; exact Hin |].
  split; reflexivity.
Qed.

Lemma indexOf_absent (arr : list string) (x : string) :
  ~ In x arr -> JS.indexOf arr x = (-1)%Z.
Proof.
  induction arr as [|y arr IH]; intro Hnot.
  - reflexivity.
  - cbn [JS.indexOf].
    destruct (String.eqb_spec y x) as [Heq | Hne].
    + exfalso. apply Hnot. left. exact Heq.
    + rewrite IH by (intro Hin; apply Hnot; right; exact Hin). reflexivity.
Qed.

Lemma truthy_nonempty (s : string) : s <> "" -> JS.truthy s = true.
Proof. destruct s; [congruence | reflexivity]. Qed.

(** * The inbound router *)

(** C10, as stated, fails for an empty stage string: the guard
    [if (message.stage)] skips it and the stage stays what it was. *)
Lemma C10_counterexample :
  let message := LiveKitMessage.state_update "" in
  let w := initial_world 0 in
  LiveKitMessage.type message = "state_update"
  /\ LiveKitMessage.stage message = Some ""
  /\ currentStage (view (handleLiveKitMessage message w)) = "GREETING"
  /\ currentStage (view (handleLiveKitMessage message w)) <> "".
Proof. cbv zeta. repeat split. discriminate. Qed.

(** C10 (amended): a [state_update] message whose stage is a non-empty
    string sets the current stage to exactly that string, whether or not
    it is one of the four fixed stages; when it is not, the next forward
    navigation moves to the first stage, GREETING.  A [state_update]
    whose stage is the empty string is ignored: apart from the console
    line written for every handled message, nothing changes. *)
Theorem C10_state_update_unvalidated :
  forall (message : LiveKitMessage.t) (o : option Thrown) (w : World),
    LiveKitMessage.type message = "state_update" ->
    (forall s, LiveKitMessage.stage message = Some s -> s <> "" ->
       currentStage (view (handleLiveKitMessage message w)) = s
       /\ (~ In s STAGES ->
           currentStage
             (view (after (goToNextStage o) (handleLiveKitMessage message w)))
           = "GREETING"))
    /\ (LiveKitMessage.stage message = Some "" ->
        handleLiveKitMessage message w
        = console_write log "Processing message:" (ArgMessage message) w).
Proof.
  intros message o w Hty. split.
  - intros s Hst Hne.
    assert (Hset : currentStage (view (handleLiveKitMessage message w)) = s).
    { unfold handleLiveKitMessage. rewrite Hty, Hst.
      cbn [String.eqb Ascii.eqb Bool.eqb].
      rewrite (truthy_nonempty s Hne). reflexivity. }
    split; [exact Hset |].
    intro Hout.
    apply goToNextStage_moves; rewrite Hset, (indexOf_absent STAGES s Hout);
      reflexivity.
  - intro Hst. unfold handleLiveKitMessage. rewrite Hty, Hst. reflexivity.
Qed.

Lemma C10_state_update_unvalidated_witness :
  let w := handleLiveKitMessage (LiveKitMessage.state_update "COMPLETED") (initial_world 0) in
  currentStage (view w) = "COMPLETED"
  /\ ~ In "COMPLETED" STAGES
  /\ currentStage (view (after (goToNextStage None) w)) = "GREETING"
  /\ view (handleLiveKitMessage (LiveKitMessage.state_update "") (initial_world 0))
     = initial_view.
Proof.
  intro w.
  assert (Hout : ~ In "COMPLETED" STAGES).
  { cbn. intros [H | [H | [H | [H | []]]]]; discriminate H. }
  pose proof (proj1 (C10_state_update_unvalidated
                       (LiveKitMessage.state_update "COMPLETED")
                       None (initial_world 0) eq_refl)
                "COMPLETED" eq_refl ltac:(discriminate)) as H.
  split; [exact (proj1 H) |].
  split; [exact Hout |].
  split; [exact (proj2 H Hout) |].
  rewrite (proj2 (C10_state_update_unvalidated (LiveKitMessage.state_update "")
                    None (initial_world 0) eq_refl) eq_refl).
  reflexivity.
Defined.

Lemma JS_last_nil {A} : JS.last (@nil A) = None.
Proof. reflexivity. Qed.

Lemma JS_last_snoc {A} (l : list A) (x : A) : JS.last (l ++ [x]) = Some x.
Proof.
  unfold JS.last, JS.index. rewrite length_app. cbn [List.length].
  replace (Z.of_nat (List.length l + 1) - 1)%Z with (Z.of_nat (List.length l)) by lia.
  destruct (Z.ltb_spec (Z.of_nat (List.length l)) 0) as [Hneg | _]; [lia |].
  rewrite Nat2Z.id, nth_error_app2 by lia.
  rewrite Nat.sub_diag. reflexivity.
Qed.

Lemma JS_last_cons {A} (x y : A) (l : list A) : JS.last (x :: y :: l) = JS.last (y :: l).
Proof.
  unfold JS.last, JS.index. cbn [List.length].
  destruct (Z.ltb_spec (Z.of_nat (S (S (List.length l))) - 1) 0) as [Hneg | _]; [lia |].
  destruct (Z.ltb_spec (Z.of_nat (S (List.length l)) - 1) 0) as [Hneg | _]; [lia |].
  replace (Z.to_nat (Z.of_nat (S (S (List.length l))) - 1)) with (S (List.length l)) by lia.
  replace (Z.to_nat (Z.of_nat (S (List.length l)) - 1)) with (List.length l) by lia.
  reflexivity.
Qed.

Lemma ends_partial_snoc (entries : list TranscriptMessage.t) (e : TranscriptMessage.t) :
  ends_partial (entries ++ [e]) = TranscriptMessage.partial e.
Proof. unfold ends_partial. rewrite JS_last_snoc. reflexivity. Qed.

(** The test of the replace branch, for a partial message. *)
Lemma replace_test (entries : list TranscriptMessage.t) :
  (0 <? List.length entries)%nat
  && match JS.last entries with
     | Some e => TranscriptMessage.partial e
     | None => false
     end
  = ends_partial entries.
Proof. destruct entries; reflexivity. Qed.

(** The handler never touches the clock. *)
Lemma handleLiveKitMessage_now (m : LiveKitMessage.t) (w : World) :
  Date_now (handleLiveKitMessage m w) = Date_now w.
Proof.
  unfold handleLiveKitMessage.
  repeat match goal with
         | |- context [if ?c then _ else _] => destruct c
         | |- context [match ?x with Some _ => _ | None => _ end] => destruct x
         end; reflexivity.
Qed.

Lemma transcript_update_type (m : LiveKitMessage.t) :
  String.eqb (LiveKitMessage.type m) "transcript_update" = true ->
  LiveKitMessage.type m = "transcript_update".
Proof. apply String.eqb_eq. Qed.

(** A partial update replaces a trailing partial entry, and is appended
    otherwise. *)
Lemma handle_partial_update (p : LiveKitMessage.t) (w : World) :
  partial_update p = true ->
  transcript (view (handleLiveKitMessage p w))
  = ((if ends_partial (transcript (view w))
      then JS.slice_0_m1 (transcript (view w)) else transcript (view w))
     ++ [entry_for (Date_now w) p])%list.
Proof.
  unfold partial_update. intro H.
  apply andb_prop in H. destruct H as [H Hpartial].
  apply andb_prop in H. destruct H as [Hty Htxt].
  apply transcript_update_type in Hty.
  unfold handleLiveKitMessage, entry_for, text_of. rewrite Hty.
  cbn [String.eqb Ascii.eqb Bool.eqb].
  destruct (LiveKitMessage.transcript p) as [txt|]; [| discriminate Htxt].
  cbn in Htxt. rewrite Htxt, Hpartial.
  cbn [seq fold_left setTranscript setIsAgentSpeaking on_view view transcript andb].
  rewrite replace_test.
  change (view (console_write log "Processing message:" (ArgMessage p) w))
    with (view w).
  change (Date_now (console_write log "Processing message:" (ArgMessage p) w))
    with (Date_now w).
  destruct (ends_partial (transcript (view w))); reflexivity.
Qed.

(** A final update is always appended. *)
Lemma handle_final_update (f : LiveKitMessage.t) (w : World) :
  final_update f = true ->
  transcript (view (handleLiveKitMessage f w))
  = (transcript (view w) ++ [entry_for (Date_now w) f])%list.
Proof.
  unfold final_update. intro H.
  apply andb_prop in H. destruct H as [H Hfinal].
  apply andb_prop in H. destruct H as [Hty Htxt].
  apply transcript_update_type in Hty. apply negb_true_iff in Hfinal.
  unfold handleLiveKitMessage, entry_for, text_of. rewrite Hty.
  cbn [String.eqb Ascii.eqb Bool.eqb].
  destruct (LiveKitMessage.transcript f) as [txt|]; [| discriminate Htxt].
  cbn in Htxt. rewrite Htxt, Hfinal. reflexivity.
Qed.

Lemma forEach_cons (m : LiveKitMessage.t) (run : list LiveKitMessage.t) (w : World) :
  forEach_handleLiveKitMessage (m :: run) w
  = forEach_handleLiveKitMessage run (handleLiveKitMessage m w).
Proof. reflexivity. Qed.

Lemma forEach_app (run1 run2 : list LiveKitMessage.t) (w : World) :
  forEach_handleLiveKitMessage (run1 ++ run2) w
  = forEach_handleLiveKitMessage run2 (forEach_handleLiveKitMessage run1 w).
Proof. unfold forEach_handleLiveKitMessage. apply fold_left_app. Qed.

Lemma forEach_now (run : list LiveKitMessage.t) (w : World) :
  Date_now (forEach_handleLiveKitMessage run w) = Date_now w.
Proof.
  revert w. induction run as [|m run IH]; intro w; [reflexivity |].
  rewrite forEach_cons, IH. apply handleLiveKitMessage_now.
Qed.

(** A run of partial updates leaves one entry for the whole run. *)
Lemma partial_updates_coalesce (ps : list LiveKitMessage.t) (w : World) :
  forallb partial_update ps = true ->
  transcript (view (forEach_handleLiveKitMessage ps w))
  = coalesced (Date_now w) ps (transcript (view w)).
Proof.
  revert w. induction ps as [|p ps IH]; intros w Hall.
  - reflexivity.
  - cbn [forallb] in Hall. apply andb_prop in Hall. destruct Hall as [Hp Hps].
    rewrite forEach_cons, (IH _ Hps), handleLiveKitMessage_now.
    rewrite (handle_partial_update p w Hp).
    destruct ps as [|q ps].
    + unfold coalesced. rewrite JS_last_nil.
      change (JS.last [p]) with (Some p). reflexivity.
    + unfold coalesced. rewrite JS_last_cons.
      destruct (JS.last (q :: ps)) as [l|] eqn:Hlast.
      * rewrite ends_partial_snoc.
        assert (Hpartial : TranscriptMessage.partial (entry_for (Date_now w) p) = true).
        { unfold partial_update in Hp. apply andb_prop in Hp. destruct Hp as [_ Hp].
          unfold TranscriptMessage.partial, entry_for. cbn. exact Hp. }
        rewrite Hpartial. unfold JS.slice_0_m1 at 1. rewrite removelast_last.
        reflexivity.
      * exfalso. clear - Hlast.
        assert (H : exists l' x, (q :: ps) = (l' ++ [x])%list).
        { destruct (exists_last (l := q :: ps)) as (l' & x & E); [discriminate |].
          exists l', x. exact E. }
        destruct H as (l' & x & E). rewrite E, JS_last_snoc in Hlast. discriminate.
Qed.

(** C1: evaluation at the failing input.  A partial update "he" is
    followed by the final update "hello", each handled once, in order,
    on an empty transcript.  The final message is not put in the place
    of the partial entry: the transcript holds two entries, "he", still
    flagged partial, and "hello"; the run has not one entry. *)
Theorem C1_final_leaves_stale_partial :
  let run := [ LiveKitMessage.transcript_update "he" true true;
               LiveKitMessage.transcript_update "hello" false false ] in
  let entries :=
    transcript (view (forEach_handleLiveKitMessage run (initial_world 0))) in
  partial_run run = true
  /\ map TranscriptMessage.text entries = ["he"; "hello"]
  /\ map TranscriptMessage.partial entries = [true; false]
  /\ ~ one_entry_for_run run (initial_world 0).
Proof.
  cbv zeta. split; [reflexivity | split; [reflexivity | split; [reflexivity |]]].
  intros (entry & H & _).
  apply (f_equal (@List.length _)) in H. vm_compute in H. discriminate H.
Qed.

(** X25: what the handler does with a run of transcript updates that
    pass its guard on the text, all partial but the last, handled in
    order: the partial messages coalesce into one entry that carries the
    text of the last partial message (it replaces a partial entry
    already at the end of the transcript), and the final message is
    appended after that entry, which stays flagged partial. *)
Theorem partial_run_then_final :
  forall (ps : list LiveKitMessage.t) (f : LiveKitMessage.t) (w : World),
    forallb partial_update ps = true ->
    final_update f = true ->
    transcript (view (forEach_handleLiveKitMessage (ps ++ [f]) w))
    = (coalesced (Date_now w) ps (transcript (view w))
       ++ [entry_for (Date_now w) f])%list.
Proof.
  intros ps f w Hps Hf.
  rewrite forEach_app. cbn [forEach_handleLiveKitMessage fold_left].
  change (fold_left _ ps w) with (forEach_handleLiveKitMessage ps w).
  rewrite (handle_final_update f _ Hf), forEach_now.
  rewrite (partial_updates_coalesce ps w Hps). reflexivity.
Qed.

Lemma partial_run_then_final_witness :
  let ps := [ LiveKitMessage.transcript_update "he" true true;
              LiveKitMessage.transcript_update "hell" true true ] in
  let f := LiveKitMessage.transcript_update "hello" false false in
  map TranscriptMessage.text
    (transcript (view (forEach_handleLiveKitMessage (ps ++ [f]) (initial_world 0))))
  = ["hell"; "hello"].
Proof.
  intros ps f.
  rewrite (partial_run_then_final ps f (initial_world 0) eq_refl eq_refl).
  reflexivity.
Defined.

(** C2: evaluation at the failing input.  The room reports the
    connection, then the [state_update] payload arrives, then one more
    payload.  At the arrival of the [state_update] the stage changes and
    one system entry is added, but the [connection_status] message that
    was handled at its own arrival is handled again (its toast shows
    twice); at the next arrival the [state_update] is handled a second
    time and the transcript holds its system entry twice. *)
Theorem C2_messages_replayed :
  let w1 := room_events sample_decoder
              [EvConnected; EvDataReceived wire_state_update_payment]
              (initial_world 0) in
  let w2 := room_event sample_decoder (EvDataReceived wire_transcript_hello) w1 in
  currentStage (view w1) = "PAYMENT_SELECTION"
  /\ map TranscriptMessage.text (transcript (view w1))
     = ["Stage updated: payment selection"]
  /\ map TranscriptMessage.speaker (transcript (view w1)) = [system]
  /\ map title (toasts (outside w1)) = ["Connected"; "Connected"]
  /\ map TranscriptMessage.text (transcript (view w2))
     = ["Stage updated: payment selection"; "Stage updated: payment selection"; "hello"].
Proof. cbv zeta. repeat split; vm_compute; reflexivity. Qed.

(** What does hold of a single [state_update] to PAYMENT_SELECTION once
    it is handled: the stage is set and exactly one system entry, reading
    the transition to "payment selection", is appended. *)
Lemma handle_state_update_payment_selection (w : World) :
  let w' := handleLiveKitMessage (LiveKitMessage.state_update "PAYMENT_SELECTION") w in
  currentStage (view w') = "PAYMENT_SELECTION"
  /\ exists entry,
       transcript (view w') = (transcript (view w) ++ [entry])%list
       /\ TranscriptMessage.speaker entry = system
       /\ TranscriptMessage.text entry = "Stage updated: payment selection".
Proof.
  cbv zeta. split; [reflexivity |].
  eexists. split; [reflexivity | split; reflexivity].
Qed.

(** Within one run of the effect the messages are handled in arrival
    order. *)
Lemma messagesEffect_in_order (m : LiveKitMessage.t) (w : World) :
  messagesEffect (addMessage m w)
  = handleLiveKitMessage m
      (forEach_handleLiveKitMessage (messages (hook w)) (addMessage m w)).
Proof.
  unfold messagesEffect. rewrite addMessage_messages, forEach_app. reflexivity.
Qed.

(** The arrival of a decodable payload: every message received before
    is handled again, then the new one. *)
Lemma room_event_replays (parse : string -> Thrown + LiveKitMessage.t)
    (payload : string) (m : LiveKitMessage.t) (w : World) :
  parse payload = inr m ->
  room_event parse (EvDataReceived payload) w
  = handleLiveKitMessage m
      (forEach_handleLiveKitMessage (messages (hook w)) (addMessage m w)).
Proof.
  intro H. unfold room_event. cbn [listener]. rewrite H.
  rewrite addMessage_messages, length_app. cbn [List.length].
  destruct (Nat.eqb_spec (List.length (messages (hook w)) + 1)
                         (List.length (messages (hook w)))) as [Heq | _];
    [lia |].
  apply messagesEffect_in_order.
Qed.

(** * More of the outbound sender *)

Lemma sendData_calls (o : option Thrown) (msg : JS.object) (w : World) :
  calls (outside (after (sendData o msg) w))
  = (calls (outside w) ++ published_by msg w)%list.
Proof.
  unfold after, sendData, published_by, bind, read.
  destruct (roomRef (hook w)) as [r|]; [destruct (isConnected (hook w))|];
    try (cbn; rewrite app_nil_r; reflexivity).
  destruct o as [e|]; reflexivity.
Qed.

(** X1: with a room held and connected, and a message that is a plain
    object of string properties whose names are distinct and none an
    array index, [sendData] makes exactly one publish call, on the held
    room, reliable, carrying [JSON.stringify(message)]; it settles
    normally whether the publish succeeds or fails; on failure the error
    string becomes "Failed to send data: " followed by the failure text,
    on success it is left as it was. *)
Theorem sendData_connected :
  forall (o : option Thrown) (message : JS.object) (r : Room) (w : World),
    insertion_ordered message = true ->
    roomRef (hook w) = Some r ->
    isConnected (hook w) = true ->
    let w' := after (sendData o message) w in
    completion (sendData o message) w = Normal tt
    /\ calls (outside w')
       = (calls (outside w) ++ [PublishData r (JS.stringify message) true])%list
    /\ error (hook w')
       = match o with
         | None => error (hook w)
         | Some e => Some ("Failed to send data: " ++ error_text e)
         end.
Proof.
  intros o message r w _ Href Hcon.
  split; [apply sendData_completion |].
  split.
  - rewrite sendData_calls. unfold published_by. rewrite Href, Hcon. reflexivity.
  - unfold after, sendData, bind, read. rewrite Href, Hcon.
    destruct o as [e|]; reflexivity.
Qed.

Lemma sendData_connected_witness :
  let message := [("type", "manual_stage_change"); ("stage", "RCA_DOCS")] in
  let w' := after (sendData (Some OtherValue) message) (connected_world 0) in
  insertion_ordered message = true
  /\ error (hook w') = Some "Failed to send data: Unknown error"
  /\ List.length (calls (outside w')) = 1%nat.
Proof.
  intros message w'.
  pose proof (sendData_connected (Some OtherValue) message 0%nat
                (connected_world 0) eq_refl eq_refl eq_refl) as H.
  split; [reflexivity |].
  split; [exact (proj2 (proj2 H)) |].
  unfold w'. rewrite (proj1 (proj2 H)). reflexivity.
Defined.

Lemma sendData_other_calls (o : option Thrown) (msg : JS.object) (w : World) :
  filter (fun c => negb (is_publish c)) (calls (outside (after (sendData o msg) w)))
  = filter (fun c => negb (is_publish c)) (calls (outside w)).
Proof.
  rewrite sendData_calls, filter_app. unfold published_by.
  destruct (roomRef (hook w)) as [r|]; [destruct (isConnected (hook w))|];
    cbn; rewrite app_nil_r; reflexivity.
Qed.

(** X2: in every state and for every outcome of the publish,
    [sendData] settles normally and changes nothing of the session but
    the error string: the room, the connection flags, the participant
    and track lists, the messages, the whole view, the toasts and the
    timers are as before, and it makes no call other than a publish. *)
Theorem sendData_frame :
  forall (o : option Thrown) (message : JS.object) (w : World),
    let w' := after (sendData o message) w in
    completion (sendData o message) w = Normal tt
    /\ room (hook w') = room (hook w)
    /\ roomRef (hook w') = roomRef (hook w)
    /\ isConnected (hook w') = isConnected (hook w)
    /\ isConnecting (hook w') = isConnecting (hook w)
    /\ participants (hook w') = participants (hook w)
    /\ audioTracks (hook w') = audioTracks (hook w)
    /\ messages (hook w') = messages (hook w)
    /\ view w' = view w
    /\ toasts (outside w') = toasts (outside w)
    /\ timers (outside w') = timers (outside w)
    /\ filter (fun c => negb (is_publish c)) (calls (outside w'))
       = filter (fun c => negb (is_publish c)) (calls (outside w)).
Proof.
  intros o message w w'.
  split; [apply sendData_completion |].
  repeat split; try apply sendData_other_calls; try apply sendData_view;
    unfold w', after, sendData, bind, read;
    (destruct (roomRef (hook w)) as [r|] eqn:Href;
     [destruct (isConnected (hook w)) eqn:Hcon|];
     [destruct o as [e|] | |]; cbn; congruence).
Qed.

(** * More of the session connector *)

Lemma listener_calls (parse : string -> Thrown + LiveKitMessage.t)
    (e : RoomEvent) (w : World) :
  calls (outside (listener parse e w)) = (calls (outside w) ++ attached_by [e])%list.
Proof.
  destruct e as [ | reason | payload | t identity | t | p | p ]; cbn [listener attached_by flat_map];
    try (cbn; rewrite app_nil_r; reflexivity).
  - destruct (parse payload); cbn; rewrite app_nil_r; reflexivity.
  - destruct t as [i k]; destruct k; cbn; rewrite ?app_nil_r; reflexivity.
  - destruct t as [i k]; destruct k; cbn; rewrite ?app_nil_r; reflexivity.
Qed.

Lemma attached_by_cons (e : RoomEvent) (events : list RoomEvent) :
  attached_by (e :: events) = (attached_by [e] ++ attached_by events)%list.
Proof. unfold attached_by. cbn. rewrite app_nil_r. reflexivity. Qed.

Lemma dispatch_calls (parse : string -> Thrown + LiveKitMessage.t)
    (events : list RoomEvent) (w : World) :
  calls (outside (dispatch parse events w))
  = (calls (outside w) ++ attached_by events)%list.
Proof.
  revert w. induction events as [|e events IH]; intro w.
  - cbn. rewrite app_nil_r. reflexivity.
  - change (dispatch parse (e :: events) w)
      with (dispatch parse events (listener parse e w)).
    rewrite IH, listener_calls, (attached_by_cons e events), app_assoc. reflexivity.
Qed.

(** Room events change neither the error string, nor [isConnecting],
    nor the count of rooms, nor the view. *)
Lemma dispatch_frame (parse : string -> Thrown + LiveKitMessage.t)
    (events : list RoomEvent) (w : World) :
  error (hook (dispatch parse events w)) = error (hook w)
  /\ isConnecting (hook (dispatch parse events w)) = isConnecting (hook w)
  /\ rooms_created (outside (dispatch parse events w)) = rooms_created (outside w)
  /\ view (dispatch parse events w) = view w.
Proof.
  revert w. induction events as [|e events IH]; intro w.
  - repeat split.
  - change (dispatch parse (e :: events) w)
      with (dispatch parse events (listener parse e w)).
    destruct (IH (listener parse e w)) as (H1 & H2 & H3 & H4).
    rewrite H1, H2, H3, H4. clear.
    destruct e as [ | reason | payload | t identity | t | p | p ]; cbn [listener];
      try (repeat split; reflexivity).
    + destruct (parse payload); repeat split; reflexivity.
    + destruct t as [i k]; destruct k; repeat split; reflexivity.
    + destruct t as [i k]; destruct k; repeat split; reflexivity.
Qed.

Ltac run_connect Hing Hed :=
  unfold after, completion, connect, bind, read; rewrite Hing, Hed; cbn [orb];
  unfold try_finally, try_catch, new_Room_with_listeners, generateToken,
    bind, read, act, ret, await, throw.

(** The calls of [connect], in order. *)
Lemma connect_trace (parse : string -> Thrown + LiveKitMessage.t)
    (props : UseLiveKitProps) (env : ConnectEnv) (w : World) :
  isConnecting (hook w) = false ->
  isConnected (hook w) = false ->
  calls (outside (after (connect parse props env) w))
  = (calls (outside w) ++ calls_of_connect props env (rooms_created (outside w)))%list.
Proof.
  intros Hing Hed. run_connect Hing Hed.
  unfold calls_of_connect, token_used.
  destruct (token props) as [t|]; cbn [JS.truthy_opt];
    [destruct (JS.truthy t) |];
    (destruct (connect_outcome env) as [e1|];
     [| destruct (microphone_outcome env) as [e2|]]);
    unfold ret; cbv beta iota zeta; cbn [fst snd];
    cbn [setIsConnecting setIsConnected setError console_write set_roomRef setRoom
         on_hook on_outside outside calls];
    rewrite ?dispatch_calls; cbn [call with_calls on_outside outside calls];
    rewrite ?dispatch_calls; cbn [call with_calls on_outside outside calls
      setIsConnecting setError on_hook console_write rooms_created];
    repeat rewrite <- app_assoc; cbn [app map all_events]; rewrite ?app_nil_r;
    repeat rewrite <- app_assoc; cbn [app]; reflexivity.
Qed.

Lemma dispatch_error (parse : string -> Thrown + LiveKitMessage.t)
    (events : list RoomEvent) (w : World) :
  error (hook (dispatch parse events w)) = error (hook w).
Proof. apply dispatch_frame. Qed.

Lemma dispatch_rooms_created (parse : string -> Thrown + LiveKitMessage.t)
    (events : list RoomEvent) (w : World) :
  rooms_created (outside (dispatch parse events w)) = rooms_created (outside w).
Proof. apply dispatch_frame. Qed.


(** X3: past its guard, when the room connects and the microphone is
    enabled, [connect] settles normally holding a room it has just
    created: [room] and [roomRef] both hold the new room, the count of
    rooms grew by one, [isConnecting] is false again, the error string
    is cleared, and its calls on the media client are, in order: the
    room with its seven listeners, the connect call with the server URL
    and the token, and the microphone call (with the tracks attached on
    the way). *)
Theorem connect_success :
  forall (JSON_parse : string -> Thrown + LiveKitMessage.t)
         (props : UseLiveKitProps) (env : ConnectEnv) (w : World),
    isConnecting (hook w) = false ->
    isConnected (hook w) = false ->
    connect_outcome env = None ->
    microphone_outcome env = None ->
    let r := rooms_created (outside w) in
    let w' := after (connect JSON_parse props env) w in
    completion (connect JSON_parse props env) w = Normal tt
    /\ room (hook w') = Some r
    /\ roomRef (hook w') = Some r
    /\ rooms_created (outside w') = S r
    /\ isConnecting (hook w') = false
    /\ error (hook w') = None
    /\ calls (outside w') = (calls (outside w) ++ calls_of_connect props env r)%list.
Proof.
  intros parse props env w Hing Hed Hc Hm r w'.
  assert (Htrace := connect_trace parse props env w Hing Hed).
  unfold w', r. clear w' r.
  split; [| split; [| split; [| split; [| split; [| split; [| exact Htrace]]]]]];
    clear Htrace; run_connect Hing Hed; rewrite Hc, Hm;
    destruct (JS.truthy_opt (token props));
    unfold ret; cbv beta iota zeta; cbn [fst snd];
    try reflexivity;
    cbn [setIsConnecting setIsConnected setError console_write set_roomRef setRoom
         on_hook on_outside outside hook rooms_created error];
    rewrite ?dispatch_error, ?dispatch_rooms_created; cbn;
    rewrite ?dispatch_error, ?dispatch_rooms_created; reflexivity.
Qed.

Lemma connect_success_witness :
  let w' := after (connect sample_decoder (props_of "asha") server_accepts)
                  (initial_world 0) in
  roomRef (hook w') = Some 0%nat /\ isConnecting (hook w') = false.
Proof.
  intro w'.
  pose proof (connect_success sample_decoder (props_of "asha") server_accepts
                (initial_world 0) eq_refl eq_refl eq_refl eq_refl) as H.
  split; [exact (proj1 (proj2 (proj2 H))) |
          exact (proj1 (proj2 (proj2 (proj2 (proj2 H)))))].
Defined.

Lemma listener_console_in (parse : string -> Thrown + LiveKitMessage.t)
    (e : RoomEvent) (w : World) (x : LogEntry) :
  In x (console (outside w)) -> In x (console (outside (listener parse e w))).
Proof.
  intro H.
  destruct e as [ | reason | payload | [i k] identity | [i k] | p | p ];
    cbn [listener];
    try destruct (parse payload); try destruct k; cbn;
    repeat (apply in_or_app; left); exact H.
Qed.

Lemma dispatch_console_in (parse : string -> Thrown + LiveKitMessage.t)
    (events : list RoomEvent) (w : World) (x : LogEntry) :
  In x (console (outside w)) -> In x (console (outside (dispatch parse events w))).
Proof.
  revert w. induction events as [|e events IH]; intros w H; [exact H |].
  change (dispatch parse (e :: events) w)
    with (dispatch parse events (listener parse e w)).
  apply IH, listener_console_in, H.
Qed.

(** X4: past its guard, [connect] always asks the new room to connect
    to the given server URL, whatever happens afterwards.  The token it
    passes is the supplied one when that is a non-empty string; when no
    token is supplied, or an empty one, it is the placeholder
    "placeholder-token-for-<userName>-in-<roomName>", and a warning is
    written to the console. *)
Theorem connect_token :
  forall (JSON_parse : string -> Thrown + LiveKitMessage.t)
         (props : UseLiveKitProps) (env : ConnectEnv) (w : World),
    isConnecting (hook w) = false ->
    isConnected (hook w) = false ->
    let r := rooms_created (outside w) in
    let w' := after (connect JSON_parse props env) w in
    (forall t, token props = Some t -> t <> "" ->
       In (RoomConnect r (serverUrl props) t) (calls (outside w')))
    /\ (token props = None \/ token props = Some "" ->
        In (RoomConnect r (serverUrl props)
              ("placeholder-token-for-" ++ userName props ++ "-in-" ++ roomName props))
           (calls (outside w'))
        /\ In {| level := warn;
                 label := "Using placeholder token - implement proper token generation in production";
                 arg := ArgNone |}
              (console (outside w'))).
Proof.
  intros parse props env w Hing Hed r w'.
  assert (Hin : In (RoomConnect r (serverUrl props) (token_used props))
                   (calls (outside w'))).
  { unfold w'. rewrite (connect_trace parse props env w Hing Hed).
    apply in_or_app. right. unfold calls_of_connect. right.
    apply in_or_app. right. left. reflexivity. }
  split.
  - intros t Ht Hne. unfold token_used in Hin. rewrite Ht in Hin.
    rewrite (truthy_nonempty t Hne) in Hin. exact Hin.
  - intro Hnone. split.
    + unfold token_used in Hin.
      destruct Hnone as [Ht | Ht]; rewrite Ht in Hin; exact Hin.
    + assert (Htr : JS.truthy_opt (token props) = false)
        by (destruct Hnone as [Ht | Ht]; rewrite Ht; reflexivity).
      unfold w'. run_connect Hing Hed. rewrite Htr.
      destruct (connect_outcome env) as [e1|];
        [| destruct (microphone_outcome env) as [e2|]];
        unfold ret; cbv beta iota zeta; cbn [fst snd];
        cbn [setIsConnecting setIsConnected setError console_write set_roomRef
             setRoom on_hook on_outside outside console];
        try (apply in_or_app; left; apply dispatch_console_in);
        repeat first
          [ apply dispatch_console_in
          | progress cbn [call with_calls console_write setError setIsConnecting
                          on_hook on_outside outside console] ];
        apply in_or_app; right; left; reflexivity.
Qed.

Lemma connect_token_witness :
  let w' := after (connect sample_decoder (props_of "asha") server_unreachable)
                  (initial_world 0) in
  In (RoomConnect 0 "wss://your-livekit-server.com"
        "placeholder-token-for-asha-in-ai-agent-room")
     (calls (outside w')).
Proof.
  intro w'.
  exact (proj1 (proj2 (connect_token sample_decoder (props_of "asha")
                         server_unreachable (initial_world 0) eq_refl eq_refl)
                      (or_introl eq_refl))).
Defined.

Lemma attached_by_no_disconnect (events : list RoomEvent) :
  filter is_disconnect (attached_by events) = [].
Proof.
  induction events as [|e events IH]; [reflexivity |].
  rewrite (attached_by_cons e events), filter_app, IH, app_nil_r.
  destruct e as [ | reason | payload | [i k] identity | [i k] | p | p ];
    try reflexivity.
  destruct k; reflexivity.
Qed.

Lemma calls_of_connect_no_disconnect (props : UseLiveKitProps) (env : ConnectEnv)
    (r : Room) :
  filter is_disconnect (calls_of_connect props env r) = [].
Proof.
  unfold calls_of_connect. cbn [filter is_disconnect all_events map app].
  rewrite filter_app, attached_by_no_disconnect.
  destruct (connect_outcome env); cbn [filter is_disconnect app];
    rewrite ?attached_by_no_disconnect; reflexivity.
Qed.

(** X5: when the room connects but enabling the microphone fails,
    [connect] keeps no reference to the room it connected: [roomRef]
    stays empty, so [disconnect] and the unmount cleanup both do
    nothing, and the connected room is never asked to disconnect. *)
Theorem failed_microphone_leaves_room_connected :
  forall (JSON_parse : string -> Thrown + LiveKitMessage.t)
         (props : UseLiveKitProps) (env : ConnectEnv) (e : Thrown) (w : World),
    isConnecting (hook w) = false ->
    isConnected (hook w) = false ->
    roomRef (hook w) = None ->
    connect_outcome env = None ->
    microphone_outcome env = Some e ->
    let r := rooms_created (outside w) in
    let w' := after (connect JSON_parse props env) w in
    In (RoomConnect r (serverUrl props) (token_used props)) (calls (outside w'))
    /\ roomRef (hook w') = None
    /\ disconnect w' = w'
    /\ unmount w' = w'
    /\ count_calls is_disconnect (unmount (disconnect w'))
       = count_calls is_disconnect w.
Proof.
  intros parse props env e w Hing Hed Href Hc Hm r w'.
  assert (Htrace := connect_trace parse props env w Hing Hed).
  fold w' r in Htrace.
  assert (Href' : roomRef (hook w') = None).
  { unfold w'. run_connect Hing Hed. rewrite Hc, Hm.
    destruct (JS.truthy_opt (token props));
      unfold ret; cbv beta iota zeta; cbn [fst snd];
      cbn [setIsConnecting setIsConnected setError console_write on_hook
           on_outside hook roomRef];
      rewrite !dispatch_roomRef; cbn; rewrite ?dispatch_roomRef; exact Href. }
  assert (Hd : disconnect w' = w') by (unfold disconnect; rewrite Href'; reflexivity).
  assert (Hu : unmount w' = w') by (unfold unmount; rewrite Href'; reflexivity).
  split.
  - rewrite Htrace. apply in_or_app. right. unfold calls_of_connect. right.
    apply in_or_app. right. left. reflexivity.
  - split; [exact Href' |]. split; [exact Hd |]. split; [exact Hu |].
    rewrite Hd, Hu. unfold count_calls. rewrite Htrace, filter_app.
    rewrite calls_of_connect_no_disconnect, app_nil_r. reflexivity.
Qed.

Lemma failed_microphone_leaves_room_connected_witness :
  let w' := after (connect sample_decoder (props_of "asha") microphone_refused)
                  (initial_world 0) in
  roomRef (hook w') = None /\ disconnect w' = w'.
Proof.
  intro w'.
  pose proof (failed_microphone_leaves_room_connected sample_decoder (props_of "asha")
                microphone_refused (ErrorObject "Permission denied")
                (initial_world 0) eq_refl eq_refl eq_refl eq_refl eq_refl) as H.
  split; [exact (proj1 (proj2 H)) | exact (proj1 (proj2 (proj2 H)))].
Defined.



(** * The room listeners *)

Lemma filter_keeps_all {A} (p : A -> bool) (l : list A) :
  (forall x, In x l -> p x = true) -> filter p l = l.
Proof.
  induction l as [|a l IH]; intro H; [reflexivity |].
  cbn. rewrite (H a (or_introl eq_refl)), IH; [reflexivity |].
  intros x Hx. apply H. right. exact Hx.
Qed.

(** X7: when a participant leaves, every occurrence of it is removed
    from the participant list and the others stay, in their order; a
    participant that was not listed, joins and leaves again, leaves the
    list exactly as it was. *)
Theorem participant_leaves :
  forall (JSON_parse : string -> Thrown + LiveKitMessage.t)
         (p : Participant) (w : World),
    let left_ := listener JSON_parse (EvParticipantDisconnected p) w in
    let joined := listener JSON_parse (EvParticipantConnected p) w in
    ~ In p (participants (hook left_))
    /\ participants (hook left_)
       = filter (fun q => negb (Nat.eqb q p)) (participants (hook w))
    /\ (forall q, q <> p ->
          (In q (participants (hook left_)) <-> In q (participants (hook w))))
    /\ (~ In p (participants (hook w)) ->
        participants (hook (listener JSON_parse (EvParticipantDisconnected p) joined))
        = participants (hook w)).
Proof.
  intros parse p w left_ joined.
  assert (Hl : participants (hook left_)
               = filter (fun q => negb (Nat.eqb q p)) (participants (hook w)))
    by reflexivity.
  split.
  - rewrite Hl. intro Hin. apply filter_In in Hin. destruct Hin as [_ Hp].
    rewrite Nat.eqb_refl in Hp. discriminate Hp.
  - split; [exact Hl |]. split.
    + intros q Hq. rewrite Hl, filter_In. split; [tauto |].
      intro Hin. split; [exact Hin |].
      apply negb_true_iff, Nat.eqb_neq. exact Hq.
    + intro Hout.
      change (participants (hook (listener parse (EvParticipantDisconnected p) joined)))
        with (filter (fun q => negb (Nat.eqb q p)) (participants (hook w) ++ [p])).
      rewrite filter_app. cbn [filter]. rewrite Nat.eqb_refl. cbn [negb].
      rewrite app_nil_r. apply filter_keeps_all.
      intros x Hx. apply negb_true_iff, Nat.eqb_neq. intro Heq. subst x.
      exact (Hout Hx).
Qed.

Lemma participant_leaves_witness :
  participants
    (hook (listener sample_decoder (EvParticipantDisconnected 7)
             (listener sample_decoder (EvParticipantConnected 7) (initial_world 0))))
  = [].
Proof.
  apply (proj2 (proj2 (proj2 (participant_leaves sample_decoder 7%nat (initial_world 0))))).
  intros [].
Defined.

(** X8: the room reports Disconnected while its room is still held,
    and [disconnect] is then called: the status message "disconnected"
    is appended twice, once by the listener and once by [disconnect]. *)
Theorem disconnected_reported_twice :
  forall (JSON_parse : string -> Thrown + LiveKitMessage.t)
         (reason : string) (r : Room) (w : World),
    roomRef (hook w) = Some r ->
    messages (hook (disconnect (listener JSON_parse (EvDisconnected reason) w)))
    = (messages (hook w)
       ++ [ LiveKitMessage.connection_status "disconnected";
            LiveKitMessage.connection_status "disconnected" ])%list.
Proof.
  intros parse reason r w Href.
  unfold disconnect.
  change (roomRef (hook (listener parse (EvDisconnected reason) w)))
    with (roomRef (hook w)).
  rewrite Href. cbn. rewrite <- app_assoc. reflexivity.
Qed.

Lemma disconnected_reported_twice_witness :
  List.length
    (messages (hook (disconnect (listener sample_decoder (EvDisconnected "server")
                                   (connected_world 0)))))
  = 2%nat.
Proof.
  rewrite (disconnected_reported_twice sample_decoder "server" 0%nat
             (connected_world 0) eq_refl).
  reflexivity.
Defined.

(** * Sessions *)

(** What [sendData] keeps of the hook state. *)
Lemma sendData_keeps (o : option Thrown) (msg : JS.object) (w : World) :
  room (hook (after (sendData o msg) w)) = room (hook w)
  /\ roomRef (hook (after (sendData o msg) w)) = roomRef (hook w)
  /\ audioTracks (hook (after (sendData o msg) w)) = audioTracks (hook w)
  /\ messages (hook (after (sendData o msg) w)) = messages (hook w)
  /\ rooms_created (outside (after (sendData o msg) w)) = rooms_created (outside w).
Proof.
  unfold after, sendData, bind, read.
  destruct (roomRef (hook w)) as [r|] eqn:Href;
    [destruct (isConnected (hook w)) eqn:Hcon|];
    [destruct o as [e|] | |]; cbn; repeat split; congruence.
Qed.

(** What [handlePaymentSelect] comes to: [sendData] never throws, so the
    catch clause is never entered. *)
Lemma handlePaymentSelect_run (o : option Thrown) (selection : string) (w : World) :
  handlePaymentSelect o selection w
  = (Normal tt,
     let w1 := after (sendData o [("type", "payment_choice"); ("selection", selection)])
                     (setIsPaymentProcessing true w) in
     seq [ setTranscript (fun prev =>
             (prev ++ [{| TranscriptMessage.id := "user-" ++ JS.show (Date_now w1);
                          TranscriptMessage.text :=
                            "Selected payment method: " ++ JS.replace "_" " " selection;
                          TranscriptMessage.speaker := user;
                          TranscriptMessage.timestamp := Date_now w1;
                          TranscriptMessage.isPartial := None |}])%list);
           toast {| title := "Payment Selection Sent";
                    description := "Selected: " ++ JS.replace "_" " " selection;
                    variant := None |};
           setTimeout 1500 ] w1).
Proof.
  unfold handlePaymentSelect. rewrite bind_act.
  unfold try_finally, try_catch. rewrite sendData_then.
  reflexivity.
Qed.

(** What a forward move comes to once it is past its guard. *)
Lemma goToNextStage_run (o : option Thrown) (w : World) (nextStage : string) :
  (JS.indexOf STAGES (currentStage (view w)) <? 3)%Z = true ->
  JS.index STAGES (JS.indexOf STAGES (currentStage (view w)) + 1) = Some nextStage ->
  goToNextStage o w
  = (Normal tt,
     let w1 := setCurrentStage nextStage w in
     let w2 := setTranscript (fun prev =>
                 (prev ++ [{| TranscriptMessage.id := "system-" ++ JS.show (Date_now w1);
                              TranscriptMessage.text :=
                                "Moved to: "
                                ++ JS.toLowerCase (JS.replace "_" " " nextStage);
                              TranscriptMessage.speaker := system;
                              TranscriptMessage.timestamp := Date_now w1;
                              TranscriptMessage.isPartial := None |}])%list) w1 in
     toast {| title := "Next Stage";
              description := "Moved to " ++ JS.replace "_" " " nextStage;
              variant := None |}
       (after (sendData o [("type", "manual_stage_change"); ("stage", nextStage)]) w2)).
Proof.
  intros Hlt Hidx. unfold goToNextStage. rewrite bind_read.
  change (Z.of_nat (List.length STAGES) - 1)%Z with 3%Z.
  rewrite Hlt, Hidx.
  rewrite bind_act, bind_read, bind_act, sendData_then. reflexivity.
Qed.

Lemma goToPreviousStage_run (o : option Thrown) (w : World) (previousStage : string) :
  (JS.indexOf STAGES (currentStage (view w)) >? 0)%Z = true ->
  JS.index STAGES (JS.indexOf STAGES (currentStage (view w)) - 1) = Some previousStage ->
  goToPreviousStage o w
  = (Normal tt,
     let w1 := setCurrentStage previousStage w in
     let w2 := setTranscript (fun prev =>
                 (prev ++ [{| TranscriptMessage.id := "system-" ++ JS.show (Date_now w1);
                              TranscriptMessage.text :=
                                "Moved back to: "
                                ++ JS.toLowerCase (JS.replace "_" " " previousStage);
                              TranscriptMessage.speaker := system;
                              TranscriptMessage.timestamp := Date_now w1;
                              TranscriptMessage.isPartial := None |}])%list) w1 in
     toast {| title := "Previous Stage";
              description := "Moved to " ++ JS.replace "_" " " previousStage;
              variant := None |}
       (after (sendData o [("type", "manual_stage_change"); ("stage", previousStage)]) w2)).
Proof.
  intros Hgt Hidx. unfold goToPreviousStage. rewrite bind_read.
  rewrite Hgt, Hidx.
  rewrite bind_act, bind_read, bind_act, sendData_then. reflexivity.
Qed.

(** The guard of a move always finds the stage it indexes. *)
Lemma next_index_found (s : string) :
  (JS.indexOf STAGES s <? 3)%Z = true ->
  exists nextStage, JS.index STAGES (JS.indexOf STAGES s + 1) = Some nextStage.
Proof.
  intro H. unfold STAGES in *. cbn [JS.indexOf] in *.
  repeat match goal with
         | |- context [String.eqb ?a s] => destruct (String.eqb a s)
         end; cbn in *; try discriminate; eexists; reflexivity.
Qed.

Lemma previous_index_found (s : string) :
  (JS.indexOf STAGES s >? 0)%Z = true ->
  exists previousStage, JS.index STAGES (JS.indexOf STAGES s - 1) = Some previousStage.
Proof.
  intro H. unfold STAGES in *. cbn [JS.indexOf] in *.
  repeat match goal with
         | |- context [String.eqb ?a s] => destruct (String.eqb a s)
         end; cbn in *; try discriminate; eexists; reflexivity.
Qed.

(** * More of payment selection *)

(** X9: for every selection, in every state and for every outcome of
    the publish, [handlePaymentSelect] settles normally, sets the
    processing flag, appends exactly one user entry
    "Selected payment method: " followed by the selection with its first
    underscore turned into a space, shows the toast
    "Payment Selection Sent" (never the failure toast), and arms one
    timer of 1500 ms.  It publishes
    [{type:"payment_choice", selection}] when a room is held and
    connected and makes no call otherwise: the entry and the toast
    appear even when nothing was sent. *)
Theorem handlePaymentSelect_always_reports_sent :
  forall (o : option Thrown) (selection : string) (w : World),
    let w' := after (handlePaymentSelect o selection) w in
    completion (handlePaymentSelect o selection) w = Normal tt
    /\ isPaymentProcessing (view w') = true
    /\ transcript (view w')
       = (transcript (view w)
          ++ [{| TranscriptMessage.id := "user-" ++ JS.show (Date_now w);
                 TranscriptMessage.text :=
                   "Selected payment method: " ++ JS.replace "_" " " selection;
                 TranscriptMessage.speaker := user;
                 TranscriptMessage.timestamp := Date_now w;
                 TranscriptMessage.isPartial := None |}])%list
    /\ toasts (outside w')
       = (toasts (outside w)
          ++ [{| title := "Payment Selection Sent";
                 description := "Selected: " ++ JS.replace "_" " " selection;
                 variant := None |}])%list
    /\ timers (outside w') = (timers (outside w) ++ [1500%N])%list
    /\ calls (outside w')
       = (calls (outside w)
          ++ published_by [("type", "payment_choice"); ("selection", selection)] w)%list
    /\ currentStage (view w') = currentStage (view w).
Proof.
  intros o selection w w'. unfold w', after, completion.
  rewrite handlePaymentSelect_run. cbn [fst snd].
  set (msg := [("type", "payment_choice"); ("selection", selection)]).
  set (w0 := setIsPaymentProcessing true w).
  pose proof (sendData_view o msg w0) as Hv.
  pose proof (sendData_calls o msg w0) as Hc.
  assert (Hn : Date_now (after (sendData o msg) w0) = Date_now w).
  { unfold after, sendData, bind, read.
    destruct (roomRef (hook w0)) as [r|]; [destruct (isConnected (hook w0))|];
      [destruct o as [e|] | |]; reflexivity. }
  assert (Ht : toasts (outside (after (sendData o msg) w0)) = toasts (outside w)
               /\ timers (outside (after (sendData o msg) w0)) = timers (outside w)).
  { unfold after, sendData, bind, read.
    destruct (roomRef (hook w0)) as [r|]; [destruct (isConnected (hook w0))|];
      [destruct o as [e|] | |]; split; reflexivity. }
  destruct Ht as [Ht1 Ht2].
  cbv zeta. cbn [seq fold_left setTranscript toast setTimeout on_view on_outside
                 view outside transcript toasts timers calls isPaymentProcessing
                 currentStage].
  rewrite Hv, Hn, Hc, Ht1, Ht2.
  repeat split.
Qed.

(** * More of stage navigation *)

(** X10: a forward move that the guard lets through is made locally,
    whatever the connection: the stage becomes the next entry of
    [STAGES], one system entry "Moved to: ..." is appended, the toast
    "Next Stage" is shown, and the handler settles normally.  The
    command [{type:"manual_stage_change", stage}] is published only when
    a room is held and connected; otherwise no call is made and the
    move stands all the same. *)
Theorem goToNextStage_moves_locally :
  forall (o : option Thrown) (w : World),
    canGoForward w = true ->
    exists nextStage,
      JS.index STAGES (JS.indexOf STAGES (currentStage (view w)) + 1) = Some nextStage
      /\ completion (goToNextStage o) w = Normal tt
      /\ currentStage (view (after (goToNextStage o) w)) = nextStage
      /\ transcript (view (after (goToNextStage o) w))
         = (transcript (view w)
            ++ [{| TranscriptMessage.id := "system-" ++ JS.show (Date_now w);
                   TranscriptMessage.text :=
                     "Moved to: " ++ JS.toLowerCase (JS.replace "_" " " nextStage);
                   TranscriptMessage.speaker := system;
                   TranscriptMessage.timestamp := Date_now w;
                   TranscriptMessage.isPartial := None |}])%list
      /\ calls (outside (after (goToNextStage o) w))
         = (calls (outside w)
            ++ published_by [("type", "manual_stage_change"); ("stage", nextStage)] w)%list
      /\ map title (toasts (outside (after (goToNextStage o) w)))
         = (map title (toasts (outside w)) ++ ["Next Stage"])%list.
Proof.
  intros o w Hgo. unfold canGoForward in Hgo.
  change (Z.of_nat (List.length STAGES) - 1)%Z with 3%Z in Hgo.
  destruct (next_index_found _ Hgo) as [nextStage Hidx].
  exists nextStage. split; [exact Hidx |].
  unfold after, completion. rewrite (goToNextStage_run o w nextStage Hgo Hidx).
  cbn [fst snd]. cbv zeta.
  set (msg := [("type", "manual_stage_change"); ("stage", nextStage)]).
  match goal with
  | |- context [after (sendData o msg) ?x] => set (w0 := x)
  end.
  pose proof (sendData_view o msg w0) as Hv.
  pose proof (sendData_calls o msg w0) as Hc.
  assert (Ht : toasts (outside (after (sendData o msg) w0)) = toasts (outside w)).
  { unfold after, sendData, bind, read.
    destruct (roomRef (hook w0)) as [r|]; [destruct (isConnected (hook w0))|];
      [destruct o as [e|] | |]; reflexivity. }
  cbn [toast on_outside view outside calls toasts].
  rewrite Hv, Hc, Ht, map_app.
  repeat split.
Qed.

Lemma goToNextStage_moves_locally_witness :
  exists nextStage,
    currentStage (view (after (goToNextStage None) (initial_world 0))) = nextStage
    /\ calls (outside (after (goToNextStage None) (initial_world 0))) = [].
Proof.
  destruct (goToNextStage_moves_locally None (initial_world 0) eq_refl)
    as (nextStage & _ & _ & Hs & _ & Hc & _).
  exists nextStage. split; [exact Hs | exact Hc].
Defined.

Lemma stage_cases (s : string) :
  s = "GREETING" \/ s = "PAYMENT_SELECTION" \/ s = "NBFC_PROCESS" \/ s = "RCA_DOCS"
  \/ ~ In s STAGES.
Proof.
  destruct (in_dec string_dec s STAGES) as [Hin | Hout]; [| tauto].
  cbn in Hin. destruct Hin as [H | [H | [H | [H | []]]]]; subst s; tauto.
Qed.

Ltac next_from w o target :=
  let Hc := fresh "Hc" in
  let Hs := fresh "Hs" in
  destruct (goToNextStage_moves o w target) as [Hc Hs];
  [ solve [ match goal with H : currentStage (view w) = _ |- _ => rewrite H end;
            reflexivity ] ..
  | idtac ].

Ltac previous_from w o target :=
  let Hc := fresh "Hc" in
  let Hs := fresh "Hs" in
  destruct (goToPreviousStage_moves o w target) as [Hc Hs];
  [ solve [ match goal with H : currentStage (view w) = _ |- _ => rewrite H end;
            reflexivity ] ..
  | idtac ].

(** X11: the two navigation buttons are disabled exactly when their
    handler would do nothing: with [canGoForward] false [goToNextStage]
    returns the state unchanged, with [canGoForward] true it changes the
    current stage; likewise [canGoBack] and [goToPreviousStage]. *)
Theorem navigation_buttons_match_handlers :
  forall (o : option Thrown) (w : World),
    (canGoForward w = false -> goToNextStage o w = (Normal tt, w))
    /\ (canGoForward w = true ->
        currentStage (view (after (goToNextStage o) w)) <> currentStage (view w))
    /\ (canGoBack w = false -> goToPreviousStage o w = (Normal tt, w))
    /\ (canGoBack w = true ->
        currentStage (view (after (goToPreviousStage o) w)) <> currentStage (view w)).
Proof.
  intros o w. unfold canGoForward, canGoBack.
  change (Z.of_nat (List.length STAGES) - 1)%Z with 3%Z.
  split; [apply goToNextStage_at_boundary |].
  split; [| split; [apply goToPreviousStage_at_boundary |]].
  - intro Hgo.
    destruct (stage_cases (currentStage (view w))) as [H | [H | [H | [H | H]]]].
    + next_from w o "PAYMENT_SELECTION". rewrite Hs, H. discriminate.
    + next_from w o "NBFC_PROCESS". rewrite Hs, H. discriminate.
    + next_from w o "RCA_DOCS". rewrite Hs, H. discriminate.
    + rewrite H in Hgo. discriminate Hgo.
    + destruct (goToNextStage_moves o w "GREETING") as [_ Hs];
        try (rewrite (indexOf_absent STAGES _ H); reflexivity).
      rewrite Hs. intro Heq. apply H. rewrite <- Heq. left. reflexivity.
  - intro Hgo.
    destruct (stage_cases (currentStage (view w))) as [H | [H | [H | [H | H]]]].
    + rewrite H in Hgo. discriminate Hgo.
    + previous_from w o "GREETING". rewrite Hs, H. discriminate.
    + previous_from w o "PAYMENT_SELECTION". rewrite Hs, H. discriminate.
    + previous_from w o "NBFC_PROCESS". rewrite Hs, H. discriminate.
    + rewrite (indexOf_absent STAGES _ H) in Hgo. discriminate Hgo.
Qed.

Lemma navigation_buttons_match_handlers_witness :
  goToPreviousStage None (initial_world 0) = (Normal tt, initial_world 0)
  /\ currentStage (view (after (goToNextStage None) (initial_world 0))) <> "GREETING".
Proof.
  pose proof (navigation_buttons_match_handlers None (initial_world 0)) as H.
  split.
  - apply (proj1 (proj2 (proj2 H))). reflexivity.
  - apply (proj1 (proj2 H)). reflexivity.
Defined.

(** X12: from one of the four stages, a forward move followed by a
    backward move brings the current stage back, and so does a backward
    move followed by a forward move, whenever the first move is
    possible. *)
Theorem navigation_round_trip :
  forall (o1 o2 : option Thrown) (w : World),
    In (currentStage (view w)) STAGES ->
    (canGoForward w = true ->
     currentStage (view (after (goToPreviousStage o2) (after (goToNextStage o1) w)))
     = currentStage (view w))
    /\ (canGoBack w = true ->
        currentStage (view (after (goToNextStage o2) (after (goToPreviousStage o1) w)))
        = currentStage (view w)).
Proof.
  intros o1 o2 w Hin. unfold canGoForward, canGoBack.
  change (Z.of_nat (List.length STAGES) - 1)%Z with 3%Z.
  destruct (stage_cases (currentStage (view w))) as [H | [H | [H | [H | H]]]];
    [ | | | | contradiction ].
  - split; intro Hgo; [| rewrite H in Hgo; discriminate Hgo].
    next_from w o1 "PAYMENT_SELECTION".
    previous_from (after (goToNextStage o1) w) o2 "GREETING".
    congruence.
  - split; intro Hgo.
    + next_from w o1 "NBFC_PROCESS".
      previous_from (after (goToNextStage o1) w) o2 "PAYMENT_SELECTION".
      congruence.
    + previous_from w o1 "GREETING".
      next_from (after (goToPreviousStage o1) w) o2 "PAYMENT_SELECTION".
      congruence.
  - split; intro Hgo.
    + next_from w o1 "RCA_DOCS".
      previous_from (after (goToNextStage o1) w) o2 "NBFC_PROCESS".
      congruence.
    + previous_from w o1 "PAYMENT_SELECTION".
      next_from (after (goToPreviousStage o1) w) o2 "NBFC_PROCESS".
      congruence.
  - split; intro Hgo; [rewrite H in Hgo; discriminate Hgo |].
    previous_from w o1 "NBFC_PROCESS".
    next_from (after (goToPreviousStage o1) w) o2 "RCA_DOCS".
    congruence.
Qed.

Lemma navigation_round_trip_witness :
  currentStage (view (after (goToPreviousStage None)
                        (after (goToNextStage None) (initial_world 0))))
  = "GREETING".
Proof.
  apply (proj1 (navigation_round_trip None None (initial_world 0)
                  (or_introl eq_refl))).
  reflexivity.
Defined.

(** * More of the inbound router *)

Lemma length_replace_last {A} (l : list A) (x : A) :
  (0 <? List.length l)%nat = true ->
  List.length (JS.slice_0_m1 l ++ [x]) = List.length l.
Proof.
  intro H. apply Nat.ltb_lt in H.
  destruct (exists_last (l := l)) as (l' & a & E);
    [intro E; rewrite E in H; cbn in H; lia |].
  subst l. unfold JS.slice_0_m1. rewrite removelast_last, !length_app. reflexivity.
Qed.

Ltac split_handler :=
  repeat match goal with
         | |- context [if ?c then _ else _] => destruct c eqn:?
         | |- context [match ?x with Some _ => _ | None => _ end] => destruct x eqn:?
         end.

Lemma handleLiveKitMessage_transcript_length (m : LiveKitMessage.t) (w : World) :
  (List.length (transcript (view w))
   <= List.length (transcript (view (handleLiveKitMessage m w)))
   <= S (List.length (transcript (view w))))%nat.
Proof.
  unfold handleLiveKitMessage. split_handler;
    cbn [seq fold_left setTranscript setCurrentStage setIsAgentSpeaking toast
         console_write on_view on_outside view transcript];
    try lia;
    try (rewrite length_app; cbn [List.length]; lia).
  all: split_handler; try (rewrite length_app; cbn [List.length]; lia).
  all: rewrite length_replace_last;
    [lia | repeat match goal with
                  | H : (_ && _)%bool = true |- _ =>
                      apply andb_prop in H; destruct H
                  end; assumption].
Qed.

(** X13: handling an inbound message never touches the hook state
    (room, connection flags, messages, error), makes no call on the
    media client and arms no timer.  It never shortens the transcript
    and adds at most one entry.  Only a [state_update] can change the
    current stage, and only a [transcript_update] can change the
    agent-speaking flag. *)
Theorem handleLiveKitMessage_frame :
  forall (message : LiveKitMessage.t) (w : World),
    let w' := handleLiveKitMessage message w in
    hook w' = hook w
    /\ calls (outside w') = calls (outside w)
    /\ timers (outside w') = timers (outside w)
    /\ (List.length (transcript (view w)) <= List.length (transcript (view w'))
        <= S (List.length (transcript (view w))))%nat
    /\ (LiveKitMessage.type message <> "state_update" ->
        currentStage (view w') = currentStage (view w))
    /\ (LiveKitMessage.type message <> "transcript_update" ->
        isAgentSpeaking (view w') = isAgentSpeaking (view w)).
Proof.
  intros message w w'.
  split; [unfold w', handleLiveKitMessage; split_handler; reflexivity |].
  split; [unfold w', handleLiveKitMessage; split_handler; reflexivity |].
  split; [unfold w', handleLiveKitMessage; split_handler; reflexivity |].
  split; [apply handleLiveKitMessage_transcript_length |].
  split; intro Hty; unfold w', handleLiveKitMessage.
  - destruct (String.eqb_spec (LiveKitMessage.type message) "state_update");
      [contradiction |].
    split_handler; reflexivity.
  - destruct (String.eqb_spec (LiveKitMessage.type message) "transcript_update");
      [contradiction |].
    split_handler; reflexivity.
Qed.

Lemma handleLiveKitMessage_frame_witness :
  let m := LiveKitMessage.transcript_update "hello" false true in
  currentStage (view (handleLiveKitMessage m (initial_world 0))) = "GREETING".
Proof.
  intro m.
  apply (proj1 (proj2 (proj2 (proj2 (proj2
           (handleLiveKitMessage_frame m (initial_world 0))))))).
  discriminate.
Defined.

(** X14: a message whose [type] is none of the four kinds is ignored:
    apart from the console line every handled message writes, nothing
    changes. *)
Theorem unknown_kind_ignored :
  forall (message : LiveKitMessage.t) (w : World),
    ~ In (LiveKitMessage.type message) known_kinds ->
    handleLiveKitMessage message w
    = console_write log "Processing message:" (ArgMessage message) w.
Proof.
  intros message w Hout. unfold handleLiveKitMessage.
  assert (Hne : forall k, In k known_kinds ->
                  String.eqb (LiveKitMessage.type message) k = false).
  { intros k Hk. apply String.eqb_neq. intro Heq. apply Hout. rewrite Heq. exact Hk. }
  rewrite !Hne by (cbn; tauto). reflexivity.
Qed.

Lemma unknown_kind_ignored_witness :
  view (handleLiveKitMessage (LiveKitMessage.make "heartbeat") (initial_world 0))
  = initial_view.
Proof.
  rewrite (unknown_kind_ignored (LiveKitMessage.make "heartbeat") (initial_world 0)).
  - reflexivity.
  - cbn. intros [H | [H | [H | [H | []]]]]; discriminate H.
Defined.

Lemma handle_stage_update (m : LiveKitMessage.t) (w : World) :
  stage_update m = true ->
  List.length (transcript (view (handleLiveKitMessage m w)))
  = S (List.length (transcript (view w))).
Proof.
  unfold stage_update. intro H. apply andb_prop in H. destruct H as [Hty Hst].
  apply String.eqb_eq in Hty. unfold handleLiveKitMessage. rewrite Hty.
  cbn [String.eqb Ascii.eqb Bool.eqb].
  destruct (LiveKitMessage.stage m) as [s|]; [| discriminate Hst].
  cbn in Hst. rewrite Hst. cbn. rewrite length_app. cbn. lia.
Qed.

Lemma forEach_hook (run : list LiveKitMessage.t) (w : World) :
  hook (forEach_handleLiveKitMessage run w) = hook w.
Proof.
  revert w. induction run as [|m run IH]; intro w; [reflexivity |].
  rewrite forEach_cons, IH. unfold handleLiveKitMessage. split_handler; reflexivity.
Qed.

Lemma forEach_stage_updates (run : list LiveKitMessage.t) (w : World) :
  forallb stage_update run = true ->
  List.length (transcript (view (forEach_handleLiveKitMessage run w)))
  = (List.length (transcript (view w)) + List.length run)%nat.
Proof.
  revert w. induction run as [|m run IH]; intros w Hall.
  - cbn. lia.
  - cbn [forallb] in Hall. apply andb_prop in Hall. destruct Hall as [Hm Hrun].
    rewrite forEach_cons, (IH _ Hrun), (handle_stage_update m w Hm). cbn. lia.
Qed.

Lemma triangle_step (k : nat) :
  (S k * (S k + 1) / 2 = k * (k + 1) / 2 + S k)%nat.
Proof.
  replace (S k * (S k + 1))%nat with (k * (k + 1) + S k * 2)%nat by lia.
  apply Nat.div_add. discriminate.
Qed.

Lemma replay_grows (parse : string -> Thrown + LiveKitMessage.t)
    (payloads : list string) (w : World) :
  forallb stage_update (messages (hook w)) = true ->
  Forall (fun p => exists m, parse p = inr m /\ stage_update m = true) payloads ->
  let k := List.length payloads in
  let w' := room_events parse (map EvDataReceived payloads) w in
  List.length (transcript (view w'))
  = (List.length (transcript (view w))
     + k * List.length (messages (hook w)) + k * (k + 1) / 2)%nat.
Proof.
  revert w. induction payloads as [|p payloads IH]; intros w Hmsgs Hall.
  - cbn. lia.
  - inversion Hall as [| p' ps' (m & Hp & Hm) Hrest]; subst.
    cbn [map List.length].
    change (room_events parse (EvDataReceived p :: map EvDataReceived payloads) w)
      with (room_events parse (map EvDataReceived payloads)
              (room_event parse (EvDataReceived p) w)).
    set (w1 := room_event parse (EvDataReceived p) w).
    assert (Hw1 : w1 = forEach_handleLiveKitMessage (messages (hook w) ++ [m])
                          (addMessage m w)).
    { unfold w1. rewrite (room_event_replays parse p m w Hp).
      rewrite forEach_app. reflexivity. }
    assert (Hmsgs1 : messages (hook w1) = (messages (hook w) ++ [m])%list).
    { rewrite Hw1, forEach_hook. reflexivity. }
    assert (Hall1 : forallb stage_update (messages (hook w1)) = true).
    { rewrite Hmsgs1, forallb_app, Hmsgs. cbn. rewrite Hm. reflexivity. }
    assert (Hlen1 : List.length (transcript (view w1))
                    = (List.length (transcript (view w))
                       + S (List.length (messages (hook w))))%nat).
    { rewrite Hw1, forEach_stage_updates.
      - rewrite length_app. cbn. lia.
      - rewrite forallb_app, Hmsgs. cbn. rewrite Hm. reflexivity. }
    cbv zeta in IH. rewrite (IH w1 Hall1 Hrest), Hlen1, Hmsgs1, length_app.
    cbn [List.length]. rewrite triangle_step. lia.
Qed.

(** X15: the effect on [messages] handles the whole array again at
    every arrival.  When [k] decodable [state_update] messages with a
    non-empty stage arrive one after the other on a fresh session, the
    first is handled [k] times, the second [k - 1] times, and so on: the
    transcript gains [k (k + 1) / 2] system entries, not [k]. *)
Theorem replay_is_quadratic :
  forall (JSON_parse : string -> Thrown + LiveKitMessage.t)
         (payloads : list string) (w : World),
    messages (hook w) = [] ->
    Forall (fun p => exists m, JSON_parse p = inr m /\ stage_update m = true)
           payloads ->
    let k := List.length payloads in
    List.length
      (transcript (view (room_events JSON_parse (map EvDataReceived payloads) w)))
    = (List.length (transcript (view w)) + k * (k + 1) / 2)%nat.
Proof.
  intros parse payloads w Hempty Hall k.
  pose proof (replay_grows parse payloads w) as H. cbv zeta in H.
  rewrite H; [| rewrite Hempty; reflexivity | exact Hall].
  rewrite Hempty. cbn [List.length]. fold k. lia.
Qed.

Lemma replay_is_quadratic_witness :
  List.length
    (transcript
       (view (room_events sample_decoder
                (map EvDataReceived
                   [wire_state_update_payment; wire_state_update_payment;
                    wire_state_update_payment])
                (initial_world 0))))
  = 6%nat.
Proof.
  apply (replay_is_quadratic sample_decoder
           [wire_state_update_payment; wire_state_update_payment;
            wire_state_update_payment] (initial_world 0) eq_refl).
  repeat constructor;
    exists (LiveKitMessage.state_update "PAYMENT_SELECTION"); split; reflexivity.
Defined.

(** * Invariants of a session *)

Lemma quiet_refl (w : World) : quiet w w.
Proof. repeat split. exists []. rewrite app_nil_r. reflexivity. Qed.

Lemma quiet_trans (w1 w2 w3 : World) : quiet w1 w2 -> quiet w2 w3 -> quiet w1 w3.
Proof.
  intros (A1 & A2 & A3 & A4 & A5 & s1 & A6) (B1 & B2 & B3 & B4 & B5 & s2 & B6).
  repeat split; try congruence.
  exists (s1 ++ s2)%list. rewrite B6, A6, app_assoc. reflexivity.
Qed.

Lemma quiet_same_hook_calls (w w' : World) :
  hook w' = hook w ->
  calls (outside w') = calls (outside w) ->
  rooms_created (outside w') = rooms_created (outside w) ->
  quiet w w'.
Proof.
  intros Hh Hc Hr. unfold quiet. rewrite Hh. repeat split; try assumption.
  exists []. rewrite app_nil_r. exact Hc.
Qed.

Lemma quiet_sendData (o : option Thrown) (msg : JS.object) (w : World) :
  quiet w (after (sendData o msg) w).
Proof.
  destruct (sendData_keeps o msg w) as (H1 & H2 & H3 & H4 & H5).
  repeat split; try assumption.
  exists (published_by msg w). apply sendData_calls.
Qed.

Lemma quiet_handleLiveKitMessage (m : LiveKitMessage.t) (w : World) :
  quiet w (handleLiveKitMessage m w).
Proof.
  apply quiet_same_hook_calls; unfold handleLiveKitMessage; split_handler; reflexivity.
Qed.

Lemma quiet_forEach (run : list LiveKitMessage.t) (w : World) :
  quiet w (forEach_handleLiveKitMessage run w).
Proof.
  revert w. induction run as [|m run IH]; intro w; [apply quiet_refl |].
  rewrite forEach_cons.
  exact (quiet_trans _ _ _ (quiet_handleLiveKitMessage m w) (IH _)).
Qed.

Ltac through_sendData w :=
  match goal with
  | |- quiet w ?w3 =>
      match w3 with
      | context [after (sendData ?o ?m) ?x] =>
          apply (quiet_trans w x);
          [ apply quiet_same_hook_calls; reflexivity
          | apply (quiet_trans x (after (sendData o m) x));
            [ apply quiet_sendData
            | apply quiet_same_hook_calls; reflexivity ] ]
      end
  end.

Lemma quiet_handlePaymentSelect (o : option Thrown) (selection : string) (w : World) :
  quiet w (after (handlePaymentSelect o selection) w).
Proof.
  unfold after. rewrite handlePaymentSelect_run. cbn [snd]. cbv zeta.
  through_sendData w.
Qed.

Lemma quiet_navigate (step : Navigation * option Thrown) (w : World) :
  quiet w (after (navigate step) w).
Proof.
  destruct step as [[|] o]; cbn [navigate]; unfold after.
  - destruct (JS.indexOf STAGES (currentStage (view w)) <? 3)%Z eqn:Hgo.
    + destruct (next_index_found _ Hgo) as [nextStage Hidx].
      rewrite (goToNextStage_run o w nextStage Hgo Hidx). cbn [snd]. cbv zeta.
      through_sendData w.
    + rewrite (goToNextStage_at_boundary o w Hgo). apply quiet_refl.
  - destruct (JS.indexOf STAGES (currentStage (view w)) >? 0)%Z eqn:Hgo.
    + destruct (previous_index_found _ Hgo) as [previousStage Hidx].
      rewrite (goToPreviousStage_run o w previousStage Hgo Hidx). cbn [snd]. cbv zeta.
      through_sendData w.
    + rewrite (goToPreviousStage_at_boundary o w Hgo). apply quiet_refl.
Qed.

Lemma quiet_keeps_invariant (w w' : World) :
  quiet w w' -> session_invariant w -> session_invariant w'.
Proof.
  intros (Q1 & Q2 & Q3 & Q4 & Q5 & suffix & Q6) (I1 & I2 & I3).
  unfold session_invariant, held_room_was_connected.
  rewrite Q1, Q2, Q3, Q5, Q6. split; [exact I1 |]. split; [| exact I3].
  intros r Hr. destruct (I2 r Hr) as (Hlt & url & tok & Hin).
  split; [exact Hlt |]. exists url, tok. apply in_or_app. left. exact Hin.
Qed.

Lemma listener_rooms (parse : string -> Thrown + LiveKitMessage.t)
    (e : RoomEvent) (w : World) :
  room (hook (listener parse e w)) = room (hook w)
  /\ roomRef (hook (listener parse e w)) = roomRef (hook w)
  /\ rooms_created (outside (listener parse e w)) = rooms_created (outside w).
Proof.
  destruct e as [ | reason | payload | [i k] identity | [i k] | p | p ];
    cbn [listener];
    try destruct (parse payload); try destruct k; repeat split; reflexivity.
Qed.

Lemma listener_audio (parse : string -> Thrown + LiveKitMessage.t)
    (e : RoomEvent) (w : World) :
  Forall (fun t => kind t = Audio) (audioTracks (hook w)) ->
  Forall (fun t => kind t = Audio) (audioTracks (hook (listener parse e w))).
Proof.
  intro H.
  destruct e as [ | reason | payload | [i k] identity | [i k] | p | p ];
    cbn [listener];
    try destruct (parse payload); try destruct k; try exact H.
  - cbn. apply Forall_app. split; [exact H |]. repeat constructor.
  - cbn. apply Forall_forall. intros t Ht. apply filter_In in Ht.
    destruct Ht as [Ht _]. revert t Ht. apply Forall_forall. exact H.
Qed.

Lemma listener_messages (parse : string -> Thrown + LiveKitMessage.t)
    (e : RoomEvent) (w : World) :
  messages_extend w (listener parse e w).
Proof.
  unfold messages_extend.
  destruct e as [ | reason | payload | [i k] identity | [i k] | p | p ];
    cbn [listener];
    try destruct (parse payload); try destruct k;
    first [ (eexists; cbn; reflexivity)
          | (exists []; cbn; rewrite app_nil_r; reflexivity) ].
Qed.

Lemma messages_extend_refl (w : World) : messages_extend w w.
Proof. exists []. rewrite app_nil_r. reflexivity. Qed.

Lemma messages_extend_trans (w1 w2 w3 : World) :
  messages_extend w1 w2 -> messages_extend w2 w3 -> messages_extend w1 w3.
Proof.
  intros [s1 H1] [s2 H2]. exists (s1 ++ s2)%list.
  rewrite H2, H1, app_assoc. reflexivity.
Qed.

Lemma messages_extend_same (w w' : World) :
  messages (hook w') = messages (hook w) -> messages_extend w w'.
Proof. intro H. exists []. rewrite app_nil_r. exact H. Qed.

Lemma dispatch_audio (parse : string -> Thrown + LiveKitMessage.t)
    (events : list RoomEvent) (w : World) :
  Forall (fun t => kind t = Audio) (audioTracks (hook w)) ->
  Forall (fun t => kind t = Audio) (audioTracks (hook (dispatch parse events w))).
Proof.
  revert w. induction events as [|e events IH]; intros w H; [exact H |].
  change (dispatch parse (e :: events) w)
    with (dispatch parse events (listener parse e w)).
  apply IH, listener_audio, H.
Qed.

Lemma dispatch_messages (parse : string -> Thrown + LiveKitMessage.t)
    (events : list RoomEvent) (w : World) :
  messages_extend w (dispatch parse events w).
Proof.
  revert w. induction events as [|e events IH]; intro w;
    [apply messages_extend_refl |].
  change (dispatch parse (e :: events) w)
    with (dispatch parse events (listener parse e w)).
  exact (messages_extend_trans _ _ _ (listener_messages parse e w) (IH _)).
Qed.

Lemma listener_keeps_invariant (parse : string -> Thrown + LiveKitMessage.t)
    (e : RoomEvent) (w : World) :
  session_invariant w -> session_invariant (listener parse e w).
Proof.
  intros (I1 & I2 & I3).
  destruct (listener_rooms parse e w) as (R1 & R2 & R3).
  unfold session_invariant, held_room_was_connected.
  rewrite R1, R2, R3, listener_calls.
  split; [exact I1 |]. split; [| apply listener_audio, I3].
  intros r Hr. destruct (I2 r Hr) as (Hlt & url & tok & Hin).
  split; [exact Hlt |]. exists url, tok. apply in_or_app. left. exact Hin.
Qed.

Lemma disconnect_keeps_invariant (w : World) :
  session_invariant w -> session_invariant (disconnect w).
Proof.
  intro H. unfold disconnect.
  destruct (roomRef (hook w)) as [r|]; [| exact H].
  split; [reflexivity |]. split; [| constructor].
  intros r' Hr'. discriminate Hr'.
Qed.

(** What [connect] leaves, past its guard, whatever the outcome. *)
Lemma connect_effect (parse : string -> Thrown + LiveKitMessage.t)
    (props : UseLiveKitProps) (env : ConnectEnv) (w : World) :
  isConnecting (hook w) = false ->
  isConnected (hook w) = false ->
  let r := rooms_created (outside w) in
  let w' := after (connect parse props env) w in
  rooms_created (outside w') = S r
  /\ ((room (hook w') = Some r /\ roomRef (hook w') = Some r)
      \/ (room (hook w') = room (hook w) /\ roomRef (hook w') = roomRef (hook w)))
  /\ (Forall (fun t => kind t = Audio) (audioTracks (hook w)) ->
      Forall (fun t => kind t = Audio) (audioTracks (hook w')))
  /\ messages_extend w w'.
Proof.
  intros Hing Hed r w'. unfold w', r. run_connect Hing Hed.
  destruct (JS.truthy_opt (token props));
    (destruct (connect_outcome env) as [e1|];
     [| destruct (microphone_outcome env) as [e2|]]);
    unfold ret; cbv beta iota zeta; cbn [fst snd];
    (split; [| split; [| split]]);
    try (cbn [setIsConnecting setIsConnected setError console_write set_roomRef
              setRoom on_hook on_outside outside rooms_created];
         rewrite ?dispatch_rooms_created; cbn;
         rewrite ?dispatch_rooms_created; reflexivity);
    try (left; split; reflexivity);
    try (right;
         cbn [setIsConnecting setIsConnected setError console_write on_hook
              on_outside hook room roomRef];
         rewrite ?dispatch_room, ?dispatch_roomRef; cbn;
         rewrite ?dispatch_room, ?dispatch_roomRef; split; reflexivity);
    try (intro Haudio;
         cbn [setIsConnecting setIsConnected setError console_write set_roomRef
              setRoom on_hook on_outside hook audioTracks];
         repeat first [ apply dispatch_audio
                      | progress cbn [call with_calls console_write setError
                                      setIsConnecting on_hook on_outside hook
                                      audioTracks] ];
         exact Haudio);
    try (repeat first
           [ match goal with
             | |- messages_extend _ (dispatch _ _ _) =>
                 eapply messages_extend_trans; [| apply dispatch_messages]
             end
           | apply messages_extend_same; reflexivity
           | match goal with
             | |- messages_extend ?a (?f ?x) =>
                 apply (messages_extend_trans a x (f x));
                 [| apply messages_extend_same; reflexivity]
             end ]).
Qed.

Lemma connect_at_guard (parse : string -> Thrown + LiveKitMessage.t)
    (props : UseLiveKitProps) (env : ConnectEnv) (w : World) :
  isConnecting (hook w) || isConnected (hook w) = true ->
  after (connect parse props env) w = w.
Proof.
  intro H. unfold after, connect, bind, read. rewrite H. reflexivity.
Qed.

Lemma connect_keeps_invariant (parse : string -> Thrown + LiveKitMessage.t)
    (props : UseLiveKitProps) (env : ConnectEnv) (w : World) :
  session_invariant w -> session_invariant (after (connect parse props env) w).
Proof.
  intros (I1 & I2 & I3).
  destruct (isConnecting (hook w) || isConnected (hook w)) eqn:Hguard.
  - rewrite (connect_at_guard parse props env w Hguard).
    exact (conj I1 (conj I2 I3)).
  - apply orb_false_iff in Hguard. destruct Hguard as [Hing Hed].
    destruct (connect_effect parse props env w Hing Hed) as (E1 & E2 & E3 & _).
    pose proof (connect_trace parse props env w Hing Hed) as Htrace.
    unfold session_invariant, held_room_was_connected.
    rewrite E1, Htrace.
    destruct E2 as [[Hroom Href] | [Hroom Href]]; rewrite Hroom, Href.
    + split; [reflexivity |]. split; [| exact (E3 I3)].
      intros r Hr. injection Hr as Hr. subst r. split; [lia |].
      exists (serverUrl props), (token_used props).
      apply in_or_app. right. unfold calls_of_connect. right.
      apply in_or_app. right. left. reflexivity.
    + split; [exact I1 |]. split; [| exact (E3 I3)].
      intros r Hr. destruct (I2 r Hr) as (Hlt & url & tok & Hin).
      split; [lia |]. exists url, tok. apply in_or_app. left. exact Hin.
Qed.

Lemma handler_keeps_invariant (parse : string -> Thrown + LiveKitMessage.t)
    (a : Action) (w : World) :
  session_invariant w -> session_invariant (handler_of parse a w).
Proof.
  intro H. destruct a; cbn [handler_of].
  - apply connect_keeps_invariant, H.
  - apply disconnect_keeps_invariant, H.
  - apply listener_keeps_invariant, H.
  - refine (quiet_keeps_invariant w _ _ H). unfold participantsEffect.
    destruct (room (hook w)); [| apply quiet_refl].
    repeat split. exists []. rewrite app_nil_r. reflexivity.
  - exact (quiet_keeps_invariant _ _ (quiet_sendData _ _ w) H).
  - exact (quiet_keeps_invariant _ _ (quiet_handlePaymentSelect _ _ w) H).
  - refine (quiet_keeps_invariant w _ _ H). apply quiet_same_hook_calls; reflexivity.
  - exact (quiet_keeps_invariant _ _ (quiet_navigate _ w) H).
  - refine (quiet_keeps_invariant w _ _ H). apply quiet_same_hook_calls; reflexivity.
  - refine (quiet_keeps_invariant w _ _ H). apply quiet_same_hook_calls; reflexivity.
  - refine (quiet_keeps_invariant w _ _ H). apply quiet_same_hook_calls; reflexivity.
Qed.

Lemma perform_keeps_invariant (parse : string -> Thrown + LiveKitMessage.t)
    (a : Action) (w : World) :
  session_invariant w -> session_invariant (perform parse a w).
Proof.
  intro H. unfold perform. cbv zeta.
  pose proof (handler_keeps_invariant parse a w H) as H'.
  destruct (Nat.eqb _ _); [exact H' |].
  exact (quiet_keeps_invariant _ _ (quiet_forEach _ _) H').
Qed.

(** X16: in every state a session reaches from the initial one, by any
    sequence of connects, disconnects, room events, sends, payment
    selections, navigation presses, toggles and timers: the [room] state
    and [roomRef] hold the same room; a held room is one that [connect]
    created and asked to connect; and the audio-track list holds audio
    tracks only. *)
Theorem session_keeps_invariant :
  forall (JSON_parse : string -> Thrown + LiveKitMessage.t)
         (actions : list Action) (t0 : N),
    let w := session JSON_parse actions (initial_world t0) in
    room (hook w) = roomRef (hook w)
    /\ (forall r, roomRef (hook w) = Some r ->
          (r < rooms_created (outside w))%nat
          /\ exists url tok, In (RoomConnect r url tok) (calls (outside w)))
    /\ Forall (fun t => kind t = Audio) (audioTracks (hook w)).
Proof.
  intros parse actions t0.
  assert (Hgen : forall w0, session_invariant w0 ->
                   session_invariant (session parse actions w0)).
  { induction actions as [|a actions IH]; intros w0 H0; [exact H0 |].
    change (session parse (a :: actions) w0)
      with (session parse actions (perform parse a w0)).
    apply IH, perform_keeps_invariant, H0. }
  apply Hgen. split; [reflexivity |]. split; [| constructor].
  intros r Hr. discriminate Hr.
Qed.

Lemma quiet_messages_extend (w w' : World) : quiet w w' -> messages_extend w w'.
Proof. intros (_ & _ & _ & H & _). apply messages_extend_same, H. Qed.

Lemma handler_messages (parse : string -> Thrown + LiveKitMessage.t)
    (a : Action) (w : World) :
  messages_extend w (handler_of parse a w).
Proof.
  destruct a; cbn [handler_of].
  - destruct (isConnecting (hook w) || isConnected (hook w)) eqn:Hguard.
    + rewrite (connect_at_guard parse props env w Hguard). apply messages_extend_refl.
    + apply orb_false_iff in Hguard. destruct Hguard as [Hing Hed].
      apply (connect_effect parse props env w Hing Hed).
  - unfold disconnect. destruct (roomRef (hook w)); [| apply messages_extend_refl].
    eexists. cbn. reflexivity.
  - apply listener_messages.
  - apply messages_extend_same. unfold participantsEffect.
    destruct (room (hook w)); reflexivity.
  - apply quiet_messages_extend, quiet_sendData.
  - apply quiet_messages_extend, quiet_handlePaymentSelect.
  - apply messages_extend_same. reflexivity.
  - apply quiet_messages_extend, quiet_navigate.
  - apply messages_extend_same. reflexivity.
  - apply messages_extend_same. reflexivity.
  - apply messages_extend_same. reflexivity.
Qed.

(** X17: [messages] is append-only: whatever a session does, the
    messages received so far stay where they are, in their order, and
    new ones are added at the end. *)
Theorem session_messages_append_only :
  forall (JSON_parse : string -> Thrown + LiveKitMessage.t)
         (actions : list Action) (w : World),
    exists suffix,
      messages (hook (session JSON_parse actions w))
      = (messages (hook w) ++ suffix)%list.
Proof.
  intros parse actions.
  induction actions as [|a actions IH]; intro w.
  - apply messages_extend_refl.
  - change (session parse (a :: actions) w)
      with (session parse actions (perform parse a w)).
    refine (messages_extend_trans w (perform parse a w) _ _ (IH _)).
    unfold perform. cbv zeta.
    destruct (Nat.eqb _ _); [apply handler_messages |].
    refine (messages_extend_trans _ _ _ (handler_messages parse a w) _).
    apply messages_extend_same. unfold messagesEffect. rewrite forEach_hook.
    reflexivity.
Qed.

(** * The remaining handlers *)

(** X18: the microphone and audio toggles are local to the view: each
    flips its flag (so two presses restore it) and shows a toast naming
    the new state; neither touches the hook state nor makes any call on
    the media client, so the microphone that [connect] enabled is not
    muted by [toggleMicrophone]. *)
Theorem toggles_are_local :
  forall (w : World),
    (isMuted (view (toggleMicrophone w)) = negb (isMuted (view w))
     /\ isMuted (view (toggleMicrophone (toggleMicrophone w))) = isMuted (view w)
     /\ hook (toggleMicrophone w) = hook w
     /\ calls (outside (toggleMicrophone w)) = calls (outside w)
     /\ map title (toasts (outside (toggleMicrophone w)))
        = (map title (toasts (outside w))
           ++ [if isMuted (view w) then "Microphone On" else "Microphone Muted"])%list)
    /\ (audioEnabled (view (toggleAudio w)) = negb (audioEnabled (view w))
        /\ audioEnabled (view (toggleAudio (toggleAudio w))) = audioEnabled (view w)
        /\ hook (toggleAudio w) = hook w
        /\ calls (outside (toggleAudio w)) = calls (outside w)
        /\ map title (toasts (outside (toggleAudio w)))
           = (map title (toasts (outside w))
              ++ [if audioEnabled (view w) then "Audio Disabled" else "Audio Enabled"])%list).
Proof.
  intro w. split.
  - split; [reflexivity |]. split; [cbn; apply negb_involutive |].
    split; [reflexivity |]. split; [reflexivity |].
    cbn. rewrite map_app. reflexivity.
  - split; [reflexivity |]. split; [cbn; apply negb_involutive |].
    split; [reflexivity |]. split; [reflexivity |].
    cbn. rewrite map_app. reflexivity.
Qed.

(** X19: hanging up ([handleDisconnect]) logs the user out and asks a
    held room to disconnect exactly once: [disconnect] clears [roomRef],
    so the cleanup that runs when the component unmounts finds no room.
    With no room held no call is made at all. *)
Theorem handleDisconnect_disconnects_once :
  forall (app : App.State) (w : World),
    let result := handleDisconnect (app, w) in
    App.isLoggedIn (fst result) = false
    /\ App.userName (fst result) = ""
    /\ roomRef (hook (snd result)) = None
    /\ calls (outside (snd result))
       = (calls (outside w)
          ++ match roomRef (hook w) with
             | Some r => [RoomDisconnect r]
             | None => []
             end)%list.
Proof.
  intros app w. unfold handleDisconnect. cbn [fst snd App.handleLogout App.isLoggedIn].
  unfold unmount, disconnect.
  destruct (roomRef (hook w)) as [r|] eqn:Href.
  - repeat split.
  - rewrite Href. rewrite app_nil_r. repeat split. exact Href.
Qed.

(** * The stepper *)

(** X20: the stepper finds the current stage at the position
    [STAGES.indexOf] gives it, for every string: the stepper's steps and
    the navigation's stages are the same four names in the same order,
    and both answer [-1] for any other name. *)
Theorem stepper_index_agrees :
  forall (s : string), Stepper.getCurrentStepIndex s = JS.indexOf STAGES s.
Proof.
  intro s. unfold Stepper.getCurrentStepIndex, Stepper.steps, STAGES.
  cbn [Stepper.findIndex JS.indexOf Stepper.id]. reflexivity.
Qed.

(** X21: for one of the four stages the stepper marks exactly the step
    of that stage as current, the steps before it as completed, and
    prints "Step i of 4: " followed by the title of that step; the four
    lines are "Step 1 of 4: Welcome", "Step 2 of 4: Payment",
    "Step 3 of 4: NBFC" and "Step 4 of 4: Documents".  For any other
    stage name it marks no step as current or completed, marks all four
    as upcoming, and prints "Initializing...".  It never throws. *)
Theorem stepper_marks :
  forall (s : string),
    let rendered := Stepper.rendered_steps s in
    let ids_where (p : Stepper.Flags -> bool) :=
      map (fun sf => Stepper.id (fst sf)) (filter (fun sf => p (snd sf)) rendered) in
    (In s STAGES ->
       ids_where Stepper.isCurrent = [s]
       /\ ids_where Stepper.isCompleted
          = firstn (Z.to_nat (JS.indexOf STAGES s)) STAGES
       /\ exists step,
            JS.index Stepper.steps (JS.indexOf STAGES s) = Some step
            /\ Stepper.id step = s
            /\ Stepper.current_step_info s
               = Normal ("Step " ++ JS.show (Z.to_N (JS.indexOf STAGES s + 1))
                         ++ " of 4: " ++ Stepper.title step))
    /\ (~ In s STAGES ->
        ids_where Stepper.isCurrent = []
        /\ ids_where Stepper.isCompleted = []
        /\ ids_where Stepper.isUpcoming = STAGES
        /\ Stepper.current_step_info s = Normal "Initializing...")
    /\ map Stepper.current_step_info STAGES
       = [ Normal "Step 1 of 4: Welcome"; Normal "Step 2 of 4: Payment";
           Normal "Step 3 of 4: NBFC"; Normal "Step 4 of 4: Documents" ].
Proof.
  intros s rendered ids_where. unfold ids_where, rendered. clear.
  split; [| split; [| reflexivity]];
    unfold Stepper.rendered_steps, Stepper.current_step_info;
    change (Stepper.getCurrentStepIndex s) with (JS.indexOf STAGES s).
  - intro Hin.
    destruct (stage_cases s) as [H | [H | [H | [H | H]]]];
      [ | | | | contradiction ];
      subst s; (split; [reflexivity | split; [reflexivity |]]);
      eexists; (split; [reflexivity | split; reflexivity]).
  - intro Hout. rewrite (indexOf_absent STAGES s Hout). repeat split.
Qed.

Lemma stepper_marks_witness :
  Stepper.current_step_info "COMPLETED" = Normal "Initializing..."
  /\ exists step,
       Stepper.id step = "NBFC_PROCESS"
       /\ Stepper.current_step_info "NBFC_PROCESS"
          = Normal ("Step 3 of 4: " ++ Stepper.title step).
Proof.
  split.
  - apply (proj1 (proj2 (stepper_marks "COMPLETED"))).
    cbn. intros [H | [H | [H | [H | []]]]]; discriminate H.
  - destruct (proj1 (stepper_marks "NBFC_PROCESS")) as (_ & _ & st & _ & Hid & Ht).
    + cbn. tauto.
    + exists st. split; [exact Hid | exact Ht].
Defined.

(** * The document checklist *)

Lemma simulated_update_tail (rest : list Checklist.ChecklistItem) (k : nat) :
  (2 <= k)%nat ->
  map (fun '(index, item) =>
         if (index =? 0)%Z then Checklist.with_status item Checklist.uploaded
         else if (index =? 1)%Z then Checklist.with_status item Checklist.verified
         else item)
      (combine (map Z.of_nat (List.seq k (List.length rest))) rest)
  = rest.
Proof.
  revert k. induction rest as [|c rest IH]; intros k Hk; [reflexivity |].
  cbn [List.length List.seq map combine].
  destruct (Z.eqb_spec (Z.of_nat k) 0) as [E | _]; [lia |].
  destruct (Z.eqb_spec (Z.of_nat k) 1) as [E | _]; [lia |].
  rewrite IH by lia. reflexivity.
Qed.

Lemma simulated_update_shape (items : list Checklist.ChecklistItem) :
  Checklist.simulated_update items
  = match items with
    | [] => []
    | [a] => [Checklist.with_status a Checklist.uploaded]
    | a :: b :: rest =>
        Checklist.with_status a Checklist.uploaded
        :: Checklist.with_status b Checklist.verified :: rest
    end.
Proof.
  destruct items as [|a [|b rest]]; try reflexivity.
  unfold Checklist.simulated_update, indexed.
  cbn [List.length List.seq map combine Z.of_nat Z.eqb Pos.of_succ_nat Pos.eqb].
  rewrite simulated_update_tail by lia. reflexivity.
Qed.

(** X22: the simulated status update keeps the number of documents,
    their ids and their order; it marks the first document uploaded and
    the second verified whatever their status was, and leaves the
    others alone; applying it again changes nothing.  Afterwards at
    least [min 2 n] of the [n] documents count as completed, and the
    completed count reported to [onDocumentStatus] never exceeds the
    total. *)
Theorem simulated_update_effect :
  forall (items : list Checklist.ChecklistItem),
    let updated := Checklist.simulated_update items in
    List.length updated = List.length items
    /\ map Checklist.id updated = map Checklist.id items
    /\ map Checklist.status updated
       = firstn (List.length items)
           ([Checklist.uploaded; Checklist.verified]
            ++ skipn 2 (map Checklist.status items))
    /\ Checklist.simulated_update updated = updated
    /\ (Nat.min 2 (List.length items) <= Checklist.completedItems updated)%nat
    /\ (Checklist.completed (Checklist.document_status updated)
        <= Checklist.total (Checklist.document_status updated))%nat.
Proof.
  intros items updated. unfold updated.
  split; [| split; [| split; [| split; [| split]]]].
  - rewrite simulated_update_shape. destruct items as [|a [|b rest]]; reflexivity.
  - rewrite simulated_update_shape. destruct items as [|a [|b rest]]; reflexivity.
  - rewrite simulated_update_shape. destruct items as [|a [|b rest]]; try reflexivity.
    cbn [map List.length firstn app skipn Checklist.with_status Checklist.status].
    rewrite <- (length_map Checklist.status rest), firstn_all. reflexivity.
  - rewrite !simulated_update_shape. destruct items as [|a [|b rest]]; reflexivity.
  - rewrite simulated_update_shape. destruct items as [|a [|b rest]];
      unfold Checklist.completedItems; cbn; lia.
  - unfold Checklist.document_status, Checklist.completedItems.
    cbn [Checklist.completed Checklist.total]. apply filter_length_le.
Qed.

(** X23: a backward move that the guard lets through is made locally,
    whatever the connection: the stage becomes the previous entry of
    [STAGES], one system entry "Moved back to: ..." is appended, the
    toast "Previous Stage" is shown and the handler settles normally;
    the command [{type:"manual_stage_change", stage}] is published only
    when a room is held and connected. *)
Theorem goToPreviousStage_moves_locally :
  forall (o : option Thrown) (w : World),
    canGoBack w = true ->
    exists previousStage,
      JS.index STAGES (JS.indexOf STAGES (currentStage (view w)) - 1)
      = Some previousStage
      /\ completion (goToPreviousStage o) w = Normal tt
      /\ currentStage (view (after (goToPreviousStage o) w)) = previousStage
      /\ transcript (view (after (goToPreviousStage o) w))
         = (transcript (view w)
            ++ [{| TranscriptMessage.id := "system-" ++ JS.show (Date_now w);
                   TranscriptMessage.text :=
                     "Moved back to: "
                     ++ JS.toLowerCase (JS.replace "_" " " previousStage);
                   TranscriptMessage.speaker := system;
                   TranscriptMessage.timestamp := Date_now w;
                   TranscriptMessage.isPartial := None |}])%list
      /\ calls (outside (after (goToPreviousStage o) w))
         = (calls (outside w)
            ++ published_by [("type", "manual_stage_change"); ("stage", previousStage)]
                 w)%list
      /\ map title (toasts (outside (after (goToPreviousStage o) w)))
         = (map title (toasts (outside w)) ++ ["Previous Stage"])%list.
Proof.
  intros o w Hgo. unfold canGoBack in Hgo.
  destruct (previous_index_found _ Hgo) as [previousStage Hidx].
  exists previousStage. split; [exact Hidx |].
  unfold after, completion. rewrite (goToPreviousStage_run o w previousStage Hgo Hidx).
  cbn [fst snd]. cbv zeta.
  set (msg := [("type", "manual_stage_change"); ("stage", previousStage)]).
  match goal with
  | |- context [after (sendData o msg) ?x] => set (w0 := x)
  end.
  pose proof (sendData_view o msg w0) as Hv.
  pose proof (sendData_calls o msg w0) as Hc.
  assert (Ht : toasts (outside (after (sendData o msg) w0)) = toasts (outside w)).
  { unfold after, sendData, bind, read.
    destruct (roomRef (hook w0)) as [r|]; [destruct (isConnected (hook w0))|];
      [destruct o as [e|] | |]; reflexivity. }
  cbn [toast on_outside view outside calls toasts].
  rewrite Hv, Hc, Ht, map_app.
  repeat split.
Qed.

Lemma goToPreviousStage_moves_locally_witness :
  exists previousStage,
    currentStage
      (view (after (goToPreviousStage None)
               (setCurrentStage "RCA_DOCS" (connected_world 0))))
    = previousStage
    /\ List.length
         (calls (outside (after (goToPreviousStage None)
                            (setCurrentStage "RCA_DOCS" (connected_world 0)))))
       = 1%nat.
Proof.
  destruct (goToPreviousStage_moves_locally None
              (setCurrentStage "RCA_DOCS" (connected_world 0)) eq_refl)
    as (previousStage & _ & _ & Hs & _ & Hc & _).
  exists previousStage. split; [exact Hs |]. rewrite Hc. reflexivity.
Defined.

Lemma session_keeps_invariant_witness :
  let w := session sample_decoder
             [DoConnect (props_of "asha") server_accepts;
              DoPaymentSelect None "nbfc_loan"]
             (initial_world 0) in
  roomRef (hook w) = Some 0%nat
  /\ (0 < rooms_created (outside w))%nat.
Proof.
  intro w.
  assert (Href : roomRef (hook w) = Some 0%nat) by (vm_compute; reflexivity).
  split; [exact Href |].
  exact (proj1 (proj1 (proj2 (session_keeps_invariant sample_decoder
                                [DoConnect (props_of "asha") server_accepts;
                                 DoPaymentSelect None "nbfc_loan"] 0%N))
                 0%nat Href)).
Defined.

(** * The auto-connect effect after a failure *)

Lemma attached_by_no_connect (events : list RoomEvent) :
  filter is_connect (attached_by events) = [].
Proof.
  induction events as [|e events IH]; [reflexivity |].
  rewrite (attached_by_cons e events), filter_app, IH, app_nil_r.
  destruct e as [ | reason | payload | [i k] identity | [i k] | p | p ];
    try reflexivity.
  destruct k; reflexivity.
Qed.

Lemma calls_of_connect_one_connect (props : UseLiveKitProps) (env : ConnectEnv)
    (r : Room) :
  List.length (filter is_connect (calls_of_connect props env r)) = 1%nat.
Proof.
  unfold calls_of_connect. cbn [filter is_connect all_events map app List.length].
  rewrite filter_app, attached_by_no_connect.
  destruct (connect_outcome env); cbn [filter is_connect app List.length];
    rewrite ?attached_by_no_connect; reflexivity.
Qed.

(** Both flags are false again once a failed attempt has settled. *)
Lemma failed_connect_flags (parse : string -> Thrown + LiveKitMessage.t)
    (props : UseLiveKitProps) (env : ConnectEnv) (e : Thrown) (w : World) :
  isConnecting (hook w) = false ->
  isConnected (hook w) = false ->
  connection_fails env e ->
  isConnected (hook (after (connect parse props env) w)) = false
  /\ isConnecting (hook (after (connect parse props env) w)) = false.
Proof.
  intros Hing Hed Hfail. run_connect Hing Hed.
  destruct (JS.truthy_opt (token props));
    (destruct Hfail as [Hc | [Hc Hm]]; rewrite Hc; [| rewrite Hm]);
    unfold ret; cbv beta iota zeta; cbn [fst snd]; split; reflexivity.
Qed.

Lemma autoConnectEffect_runs_connect (parse : string -> Thrown + LiveKitMessage.t)
    (props : UseLiveKitProps) (env : ConnectEnv) (w : World) :
  isConnecting (hook w) = false ->
  isConnected (hook w) = false ->
  autoConnectEffect parse props env w = connect parse props env w.
Proof.
  intros Hing Hed. unfold autoConnectEffect. rewrite !bind_read, Hing, Hed.
  reflexivity.
Qed.

(** X26: the auto-connect effect retries without end while the
    connection keeps failing: each failed attempt leaves [isConnected]
    and [isConnecting] false, which is the test of the effect, so [n]
    runs of the effect on a failing connection ask the media client to
    connect [n] times. *)
Theorem auto_connect_retries :
  forall (JSON_parse : string -> Thrown + LiveKitMessage.t)
         (props : UseLiveKitProps) (envs : list ConnectEnv) (w : World),
    isConnecting (hook w) = false ->
    isConnected (hook w) = false ->
    Forall (fun env => exists e, connection_fails env e) envs ->
    let w' := auto_connect_rounds JSON_parse props envs w in
    count_calls is_connect w' = (count_calls is_connect w + List.length envs)%nat
    /\ isConnected (hook w') = false
    /\ isConnecting (hook w') = false.
Proof.
  intros parse props envs. induction envs as [|env envs IH];
    intros w Hing Hed Hall.
  - cbn. rewrite Nat.add_0_r. repeat split; assumption.
  - inversion Hall as [| env' envs' [e Hfail] Hrest]; subst.
    change (auto_connect_rounds parse props (env :: envs) w)
      with (auto_connect_rounds parse props envs
              (after (autoConnectEffect parse props env) w)).
    assert (Hstep : after (autoConnectEffect parse props env) w
                    = after (connect parse props env) w)
      by (unfold after;
          rewrite (autoConnectEffect_runs_connect parse props env w Hing Hed);
          reflexivity).
    rewrite Hstep.
    destruct (failed_connect_flags parse props env e w Hing Hed Hfail)
      as [Hed' Hing'].
    destruct (IH _ Hing' Hed' Hrest) as (Hcount & H1 & H2).
    split; [| split; assumption].
    assert (Hone : count_calls is_connect (after (connect parse props env) w)
                   = S (count_calls is_connect w)).
    { unfold count_calls.
      rewrite (connect_trace parse props env w Hing Hed), filter_app, length_app.
      rewrite calls_of_connect_one_connect. lia. }
    rewrite Hcount, Hone. cbn [List.length]. lia.
Qed.

Lemma auto_connect_retries_witness :
  count_calls is_connect
    (auto_connect_rounds sample_decoder (props_of "asha")
       [server_unreachable; microphone_refused] (initial_world 0))
  = 2%nat.
Proof.
  apply (auto_connect_retries sample_decoder (props_of "asha")
           [server_unreachable; microphone_refused] (initial_world 0)
           eq_refl eq_refl).
  constructor.
  - exists (ErrorObject "could not establish signal connection"). left. reflexivity.
  - constructor; [| constructor].
    exists (ErrorObject "Permission denied"). right. split; reflexivity.
Defined.

(** C6: evaluation at the failing input.  The component mounts while
    the server is unreachable.  The first attempt fails and leaves both
    flags false, so the auto-connect effect calls [connect] again: after
    three runs the media client has been asked to connect three times
    and three rooms were created.  A later run on a server that accepts
    connects without any action of the user, and the error string of the
    failure is gone. *)
Theorem C6_auto_connect_retries :
  let failing := auto_connect_rounds sample_decoder (props_of "asha")
                   [server_unreachable; server_unreachable; server_unreachable]
                   (initial_world 0) in
  let recovered := auto_connect_rounds sample_decoder (props_of "asha")
                     [server_unreachable; server_accepts] (initial_world 0) in
  count_calls is_connect failing = 3%nat
  /\ count_calls is_new_room failing = 3%nat
  /\ isConnected (hook failing) = false
  /\ isConnecting (hook failing) = false
  /\ error (hook failing)
     = Some "Connection failed: could not establish signal connection"
  /\ count_calls is_connect recovered = 2%nat
  /\ roomRef (hook recovered) = Some 1%nat
  /\ isConnected (hook recovered) = true
  /\ error (hook recovered) = None.
Proof. cbv zeta. repeat split; vm_compute; reflexivity. Qed.
